(** * CypherPoker.JS lobby: tables, join negotiation and the announcement cache

    A shallow embedding of [src/web/scripts/CypherPoker.js].  The instance's
    fields are a record [State]; every method is a function on [State] that
    returns a completion (normal value or thrown error) together with the
    state reached, because a JavaScript exception does not undo the mutations
    made before it.  Calls into the transport and dispatched events are
    recorded, in order, in the [log] of the state. *)

From Stdlib Require Import ZArith Lia Bool.
From stdpp Require Import base list strings.

Open Scope string_scope.
Open Scope list_scope.

(** ** JavaScript values as this file uses them *)

(** A property that holds a string, or is [undefined]/[null] ([None]).  The
    source compares with [==], under which [undefined] and [null] are equal to
    each other and to nothing else. *)
Definition js_eq (a b : option string) : bool :=
  match a, b with
  | Some x, Some y => String.eqb x y
  | None, None => true
  | _, _ => false
  end.

(** [a == s] where [s] is a string that is present. *)
Definition js_eq_str (a : option string) (s : string) : bool := js_eq a (Some s).

(** Truthiness of a string property: [undefined], [null] and [""] are falsy. *)
Definition js_truthy (a : option string) : bool :=
  match a with
  | Some s => negb (String.eqb s "")
  | None => false
  end.

(** [tableInfo] is documented as an object; a peer may also send a string. *)
Inductive Info :=
| InfoStr (s : string)
| InfoObj (kv : list (string * string)).

(** ** Table objects

    The object of the [TableObject] typedef.  The same shape serves for the
    messages built by [buildCPMessage] and [copyTable] (a table's six core
    properties plus [cpMsg] and, for [tablemsg], [message]) and for the
    properties the lobby attaches at run time ([beaconID], [joinTimeoutID],
    [_resolve], [_reject]).  A property that is absent is [None]. *)
Record TableObject := mkTable {
  cpMsg : option string;
  message : option string;
  tableName : option string;
  tableID : option string;
  ownerPID : option string;
  requiredPID : option (list string);
  joinedPID : option (list string);
  tableInfo : option Info;
  beaconID : option nat;
  joinTimeoutID : option nat;
  _resolve : option nat;
  _reject : option nat
}.

(** [new Object()] *)
Definition new_Object : TableObject :=
  mkTable None None None None None None None None None None None None.

Definition set_requiredPID (v : option (list string)) (t : TableObject) : TableObject :=
  mkTable (cpMsg t) (message t) (tableName t) (tableID t) (ownerPID t) v
    (joinedPID t) (tableInfo t) (beaconID t) (joinTimeoutID t) (_resolve t) (_reject t).

Definition set_joinedPID (v : option (list string)) (t : TableObject) : TableObject :=
  mkTable (cpMsg t) (message t) (tableName t) (tableID t) (ownerPID t) (requiredPID t)
    v (tableInfo t) (beaconID t) (joinTimeoutID t) (_resolve t) (_reject t).

Definition set_beaconID (v : option nat) (t : TableObject) : TableObject :=
  mkTable (cpMsg t) (message t) (tableName t) (tableID t) (ownerPID t) (requiredPID t)
    (joinedPID t) (tableInfo t) v (joinTimeoutID t) (_resolve t) (_reject t).

Definition set_message (v : option string) (t : TableObject) : TableObject :=
  mkTable (cpMsg t) v (tableName t) (tableID t) (ownerPID t) (requiredPID t)
    (joinedPID t) (tableInfo t) (beaconID t) (joinTimeoutID t) (_resolve t) (_reject t).

(** What [joinTable] attaches to the table it is given. *)
Definition set_request (promise timer : nat) (t : TableObject) : TableObject :=
  mkTable (cpMsg t) (message t) (tableName t) (tableID t) (ownerPID t) (requiredPID t)
    (joinedPID t) (tableInfo t) (beaconID t) (Some timer) (Some promise) (Some promise).

(** [buildCPMessage(messageType)] *)
Definition buildCPMessage (messageType : string) : TableObject :=
  mkTable (Some messageType) None None None None None None None None None None None.

(** [copyTable(sourceTable, targetObject)]: the six core properties of the
    source overwrite those of the target. *)
Definition copyTable (sourceTable targetObject : TableObject) : TableObject :=
  mkTable (cpMsg targetObject) (message targetObject)
    (tableName sourceTable) (tableID sourceTable) (ownerPID sourceTable)
    (requiredPID sourceTable) (joinedPID sourceTable) (tableInfo sourceTable)
    (beaconID targetObject) (joinTimeoutID targetObject)
    (_resolve targetObject) (_reject targetObject).

(** [isValidTable(tableObj=null)].  The two [typeof(... .length) != "number"]
    tests never fire on an array, which is what a present [requiredPID] or
    [joinedPID] is here. *)
Definition isValidTable (tableObj : option TableObject) : bool :=
  match tableObj with
  | None => false
  | Some t =>
    match ownerPID t, tableID t, tableName t, requiredPID t, joinedPID t, tableInfo t with
    | Some o, Some i, Some _, Some _, Some _, Some info =>
        negb (String.eqb o "") && negb (String.eqb i "") &&
        match info with InfoStr s => negb (String.eqb s "") | InfoObj _ => true end
    | _, _, _, _, _, _ => false
    end
  end.

(** ** Messages, events and effects *)

(** The JSON-RPC [result] object of an inbound notification: the sender and
    the payload ([None] when [data] is not an object). *)
Record Result := mkResult {
  from : string;
  data : option TableObject
}.

(** What a dispatched event carries: the inbound notification, or (for the
    timeout event) the table. *)
Inductive EventData :=
| EvResult (r : Result)
| EvTable (t : TableObject).

Record CPEvent := mkEvent {
  ev_type : string;
  ev_data : EventData
}.

Inductive JSError :=
| TypeError
| ReferenceError
| Error (msg : string).

(** Reason a join promise is rejected with: [reject(null)], or the error
    thrown inside the promise executor. *)
Inductive Reason :=
| RNull
| RThrown (e : JSError).

Inductive PromiseState :=
| Pending
| Fulfilled
| Rejected (r : Reason).

(** Everything the instance hands to its collaborators, in order. *)
Inductive Effect :=
| p2p_send (msg : TableObject) (recipients : list string)
| p2p_broadcast (msg : TableObject)
| dispatchEvent (ev : CPEvent)
| host_dispatchEvent (ev : CPEvent).

(** A pending timer: the beacon of the table object at a heap location
    ([setInterval]) or the timeout of a join request ([setTimeout]), which
    keeps the table it was started with. *)
Inductive TimerTask :=
| BeaconTick (l : nat)
| JoinTimeout (tableObj : TableObject).

(** ** The instance *)

(** Tables in [_joinedTables] are objects shared with the beacon timers and
    mutated in place, so the array holds locations into [heap].  Pending
    requests and captured announcements are only compared field by field and
    are kept by value.  The three arrays are created lazily and are [None]
    until then. *)
Record State := mkState {
  _connected : bool;
  privateID : string;
  _openTables : bool;
  _newTableCapture : bool;
  _maxCapturedTables : option Z;
  _maxCapturesPerPeer : option Z;
  _beaconInterval : option Z;
  _joinedTables : option (list nat);
  _joinTableRequests : option (list TableObject);
  _announcedTables : option (list TableObject);
  heap : list TableObject;
  timers : list (nat * TimerTask);
  next_timer : nat;
  promises : list PromiseState;
  log : list Effect
}.

(** The instance right after [new CypherPoker(settings)] on a transport whose
    [privateID] is [pid]. *)
Definition new_CypherPoker (pid : string) : State :=
  mkState false pid false false None None None None None None [] [] 0 [] [].

Definition set_connected (v : bool) (s : State) : State :=
  mkState v (privateID s) (_openTables s) (_newTableCapture s) (_maxCapturedTables s)
    (_maxCapturesPerPeer s) (_beaconInterval s) (_joinedTables s) (_joinTableRequests s)
    (_announcedTables s) (heap s) (timers s) (next_timer s) (promises s) (log s).

Definition set_openTables (v : bool) (s : State) : State :=
  mkState (_connected s) (privateID s) v (_newTableCapture s) (_maxCapturedTables s)
    (_maxCapturesPerPeer s) (_beaconInterval s) (_joinedTables s) (_joinTableRequests s)
    (_announcedTables s) (heap s) (timers s) (next_timer s) (promises s) (log s).

Definition set_newTableCapture (v : bool) (s : State) : State :=
  mkState (_connected s) (privateID s) (_openTables s) v (_maxCapturedTables s)
    (_maxCapturesPerPeer s) (_beaconInterval s) (_joinedTables s) (_joinTableRequests s)
    (_announcedTables s) (heap s) (timers s) (next_timer s) (promises s) (log s).

Definition set_maxCapturedTables (v : option Z) (s : State) : State :=
  mkState (_connected s) (privateID s) (_openTables s) (_newTableCapture s) v
    (_maxCapturesPerPeer s) (_beaconInterval s) (_joinedTables s) (_joinTableRequests s)
    (_announcedTables s) (heap s) (timers s) (next_timer s) (promises s) (log s).

Definition set_maxCapturesPerPeer (v : option Z) (s : State) : State :=
  mkState (_connected s) (privateID s) (_openTables s) (_newTableCapture s)
    (_maxCapturedTables s) v (_beaconInterval s) (_joinedTables s) (_joinTableRequests s)
    (_announcedTables s) (heap s) (timers s) (next_timer s) (promises s) (log s).

Definition set_beaconInterval (v : option Z) (s : State) : State :=
  mkState (_connected s) (privateID s) (_openTables s) (_newTableCapture s)
    (_maxCapturedTables s) (_maxCapturesPerPeer s) v (_joinedTables s) (_joinTableRequests s)
    (_announcedTables s) (heap s) (timers s) (next_timer s) (promises s) (log s).

Definition set_joinedTables (v : option (list nat)) (s : State) : State :=
  mkState (_connected s) (privateID s) (_openTables s) (_newTableCapture s)
    (_maxCapturedTables s) (_maxCapturesPerPeer s) (_beaconInterval s) v (_joinTableRequests s)
    (_announcedTables s) (heap s) (timers s) (next_timer s) (promises s) (log s).

Definition set_joinTableRequests (v : option (list TableObject)) (s : State) : State :=
  mkState (_connected s) (privateID s) (_openTables s) (_newTableCapture s)
    (_maxCapturedTables s) (_maxCapturesPerPeer s) (_beaconInterval s) (_joinedTables s) v
    (_announcedTables s) (heap s) (timers s) (next_timer s) (promises s) (log s).

Definition set_announcedTables (v : option (list TableObject)) (s : State) : State :=
  mkState (_connected s) (privateID s) (_openTables s) (_newTableCapture s)
    (_maxCapturedTables s) (_maxCapturesPerPeer s) (_beaconInterval s) (_joinedTables s)
    (_joinTableRequests s) v (heap s) (timers s) (next_timer s) (promises s) (log s).

Definition set_heap (v : list TableObject) (s : State) : State :=
  mkState (_connected s) (privateID s) (_openTables s) (_newTableCapture s)
    (_maxCapturedTables s) (_maxCapturesPerPeer s) (_beaconInterval s) (_joinedTables s)
    (_joinTableRequests s) (_announcedTables s) v (timers s) (next_timer s) (promises s) (log s).

Definition set_timers (v : list (nat * TimerTask)) (n : nat) (s : State) : State :=
  mkState (_connected s) (privateID s) (_openTables s) (_newTableCapture s)
    (_maxCapturedTables s) (_maxCapturesPerPeer s) (_beaconInterval s) (_joinedTables s)
    (_joinTableRequests s) (_announcedTables s) (heap s) v n (promises s) (log s).

Definition set_promises (v : list PromiseState) (s : State) : State :=
  mkState (_connected s) (privateID s) (_openTables s) (_newTableCapture s)
    (_maxCapturedTables s) (_maxCapturesPerPeer s) (_beaconInterval s) (_joinedTables s)
    (_joinTableRequests s) (_announcedTables s) (heap s) (timers s) (next_timer s) v (log s).

(** Append one effect to the log. *)
Definition emit (e : Effect) (s : State) : State :=
  mkState (_connected s) (privateID s) (_openTables s) (_newTableCapture s)
    (_maxCapturedTables s) (_maxCapturesPerPeer s) (_beaconInterval s) (_joinedTables s)
    (_joinTableRequests s) (_announcedTables s) (heap s) (timers s) (next_timer s)
    (promises s) (log s ++ [e]).

(** How a call completes. *)
Inductive Completion (A : Type) :=
| Normal (a : A)
| Throw (e : JSError).
Arguments Normal {A} a.
Arguments Throw {A} e.

(** ** Property getters *)

Definition connected (s : State) : bool := _connected s.

Definition openTables (s : State) : bool := _openTables s.

Definition captureNewTables (s : State) : bool := _newTableCapture s.

(** [isNaN(this["_maxCapturedTables"])] holds until the setter has run. *)
Definition maxCapturedTables (s : State) : Z := default 99%Z (_maxCapturedTables s).

Definition maxCapturesPerPeer (s : State) : Z := default 5%Z (_maxCapturesPerPeer s).

Definition beaconInterval (s : State) : Z := default 5000%Z (_beaconInterval s).

(** The getter returns a copy of the array, creating it when absent. *)
Definition announcedTables (s : State) : list TableObject := default [] (_announcedTables s).

Definition joinedTables (s : State) : list TableObject :=
  omap (fun l => heap s !! l) (default [] (_joinedTables s)).

(** ** The announcement cache *)

(** The scan of [captureTable]: [numTables] counts the cached entries whose
    [ownerPID] equals the announcer; [true] means one of the two
    [return (false)] statements inside the loop was reached. *)
Fixpoint captureTable_scan (cache : list TableObject) (tableResult : Result)
    (maxPerPeer : Z) (numTables : nat) : bool :=
  match cache with
  | [] => false
  | entry :: rest =>
    if js_eq_str (ownerPID entry) (from tableResult) then
      let numTables := S numTables in
      if js_eq (tableID entry) (tableID (default new_Object (data tableResult))) then true
      else if (Z.of_nat numTables >? maxPerPeer)%Z then true
      else captureTable_scan rest tableResult maxPerPeer numTables
    else captureTable_scan rest tableResult maxPerPeer numTables
  end.

(** [captureTable(tableResult)].  The copy [newTable], whose [ownerPID] the
    source overwrites with the announcer, is built and then dropped: what is
    unshifted into the array is [tableResult.data] itself. *)
Definition captureTable (tableResult : Result) (s : State) : bool * State :=
  let cache := default [] (_announcedTables s) in
  let s := set_announcedTables (Some cache) s in
  if negb (isValidTable (data tableResult)) then (false, s)
  else if captureTable_scan cache tableResult (maxCapturesPerPeer s) 0 then (false, s)
  else
    let cache := default new_Object (data tableResult) :: cache in
    let cache :=
      if (Z.of_nat (length cache) >? maxCapturedTables s)%Z then removelast cache else cache in
    (true, set_announcedTables (Some cache) s).

(** ** Timers and promises *)

(** [setInterval] and [setTimeout]: the new timer gets the next identifier. *)
Definition setTimer (task : TimerTask) (s : State) : nat * State :=
  (next_timer s, set_timers (timers s ++ [(next_timer s, task)]) (S (next_timer s)) s).

(** [clearInterval(id)] and [clearTimeout(id)]; an absent [id] clears nothing. *)
Definition clearTimer (id : option nat) (s : State) : State :=
  match id with
  | None => s
  | Some i => set_timers (filter (fun t => t.1 ≠ i) (timers s)) (next_timer s) s
  end.

(** [new Promise(...)]: the handle is the promise's position in [promises]. *)
Definition new_Promise (s : State) : nat * State :=
  (length (promises s), set_promises (promises s ++ [Pending]) s).

(** [resolve] and [reject] settle a promise that is still pending and do
    nothing to a settled one. *)
Definition settle (p : nat) (v : PromiseState) (s : State) : State :=
  match promises s !! p with
  | Some Pending => set_promises (<[p := v]> (promises s)) s
  | _ => s
  end.

(** ** Table registry *)

(** [createTablePIDList(PIDList)]: a copy without the local peer. *)
Definition createTablePIDList (self : string) (PIDList : list string) : list string :=
  filter (fun pid => pid ≠ self) PIDList.

(** [announceTable(tableObj, context)].  Only [context] is used past the
    first statement, so the function behaves the same as a method call and as
    a timer callback. *)
Definition announceTable (tableObj : TableObject) (context : State)
    : Completion unit * State :=
  match requiredPID tableObj with
  | None => (Throw TypeError, context)
  | Some required =>
    if Nat.eqb (length required) 0 then
      (Normal tt, clearTimer (beaconID tableObj) context)
    else
      let announceObj := copyTable tableObj (buildCPMessage "newtable") in
      (Normal tt, emit (p2p_broadcast announceObj) context)
  end.

(** The [players] argument of [createTable]: a number of open seats or an
    array of peer identifiers and wildcards. *)
Inductive Players :=
| PlayerCount (n : Z)
| PlayerList (l : list string).

(** [createTable(tableName, players, tableInfo, tableID, activateBeacon)].
    [random] is the value of [String(Math.random()).split(".")[1]].  Returns
    the location of the new table object. *)
Definition createTable (tableName_ : option string) (players : Players)
    (tableInfo_ : option Info) (tableID_ : option string) (random : option string)
    (activateBeacon : bool) (s : State) : Completion nat * State :=
  if negb (connected s) then
    (Throw (Error "Peer-to-peer network connection not established."), s)
  else
    let id := match tableID_ with Some i => Some i | None => random end in
    let s := set_joinedTables (Some (default [] (_joinedTables s))) s in
    let required :=
      match players with
      | PlayerCount n => replicate (Z.to_nat n) "*"
      | PlayerList l => l
      end in
    let info := match tableInfo_ with Some i => i | None => InfoObj [] end in
    let newTableObj :=
      mkTable None None tableName_ id (Some (privateID s)) (Some required)
        (Some [privateID s]) (Some info) None None None None in
    let l := length (heap s) in
    let s := set_heap (heap s ++ [newTableObj]) s in
    let s := set_joinedTables (Some (default [] (_joinedTables s) ++ [l])) s in
    let s := set_openTables true s in
    if activateBeacon then
      let '(timer, s) := setTimer (BeaconTick l) s in
      let newTableObj := set_beaconID (Some timer) newTableObj in
      let s := set_heap (<[l := newTableObj]> (heap s)) s in
      match announceTable newTableObj s with
      | (Normal _, s) => (Normal l, s)
      | (Throw e, s) => (Throw e, s)
      end
    else (Normal l, s).

(** The three-field identity test used by the registry loops. *)
Definition same_table (a b : TableObject) : bool :=
  js_eq (tableID a) (tableID b) && js_eq (tableName a) (tableName b) &&
  js_eq (ownerPID a) (ownerPID b).

(** First position in [_joinedTables] whose table has the identity of
    [tableObj]; a slot that holds no object makes the property read throw. *)
Fixpoint find_joined (locs : list nat) (h : list TableObject) (tableObj : TableObject)
    (count : nat) : Completion (option nat) :=
  match locs with
  | [] => Normal None
  | l :: rest =>
    match h !! l with
    | None => Throw TypeError
    | Some currentTable =>
      if same_table currentTable tableObj then Normal (Some count)
      else find_joined rest h tableObj (S count)
    end
  end.

(** [leaveJoinedTable(tableObj)] *)
Definition leaveJoinedTable (tableObj : option TableObject) (s : State)
    : Completion bool * State :=
  if negb (connected s) then
    (Throw (Error "Peer-to-peer network connection not established."), s)
  else if negb (isValidTable tableObj) then (Normal false, s)
  else
    let tableObj := default new_Object tableObj in
    let locs := default [] (_joinedTables s) in
    let s := set_joinedTables (Some locs) s in
    match find_joined locs (heap s) tableObj 0 with
    | Throw e => (Throw e, s)
    | Normal None => (Normal false, s)
    | Normal (Some count) =>
      let s := set_joinedTables (Some (delete count locs)) s in
      let leaveNotificationObj := copyTable tableObj (buildCPMessage "leavetable") in
      let tablePIDs := createTablePIDList (privateID s) (default [] (joinedPID tableObj)) in
      (Normal true, emit (p2p_send leaveNotificationObj tablePIDs) s)
    end.

(** [sendToTable(tableObj, message)] *)
Definition sendToTable (tableObj : option TableObject) (message_ : option string) (s : State)
    : Completion bool * State :=
  if negb (connected s) then
    (Throw (Error "Peer-to-peer network connection not established."), s)
  else if negb (isValidTable tableObj) then (Normal false, s)
  else
    match message_ with
    | None => (Normal false, s)
    | Some _ =>
      let tableObj := default new_Object tableObj in
      let tablePIDs := createTablePIDList (privateID s) (default [] (joinedPID tableObj)) in
      let tableMessageObj :=
        mkTable (Some "tablemsg") message_ (tableName tableObj) (tableID tableObj)
          None None None None None None None None in
      (Normal true, emit (p2p_send tableMessageObj tablePIDs) s)
    end.

(** How the free identifier [ownerID] in [getJoinedTables] resolves: the
    method has no such parameter or local (its third parameter is
    [ownerPID]), so the name is looked up in the enclosing scopes. *)
Inductive GlobalLookup :=
| Unresolvable
| ResolvesTo (is_null : bool).

(** One pass of the loop body of [getJoinedTables] for the table at hand:
    the score [hits] of the row, or the [ReferenceError] of reading [ownerID]. *)
Definition getJoinedTables_hits (ownerID : GlobalLookup) (tableName_ tableID_ : option string)
    (t : TableObject) : Completion Z :=
  let hits := 0%Z in
  let hits :=
    match tableName_ with
    | Some _ => if js_eq (tableName t) tableName_ then (hits + 1)%Z else (hits - 10)%Z
    | None => hits
    end in
  let hits :=
    match tableID_ with
    | Some _ => if js_eq (tableID t) tableID_ then (hits + 1)%Z else (hits - 10)%Z
    | None => hits
    end in
  match ownerID with
  | Unresolvable => Throw ReferenceError
  | ResolvesTo true => Normal hits
  | ResolvesTo false =>
    Normal (if js_truthy (ownerPID t) then (hits + 1)%Z else (hits - 10)%Z)
  end.

Fixpoint getJoinedTables_loop (ownerID : GlobalLookup) (tableName_ tableID_ : option string)
    (locs : list nat) (h : list TableObject) : Completion (list TableObject) :=
  match locs with
  | [] => Normal []
  | l :: rest =>
    match h !! l with
    | None => Throw TypeError
    | Some t =>
      match getJoinedTables_hits ownerID tableName_ tableID_ t with
      | Throw e => Throw e
      | Normal hits =>
        match getJoinedTables_loop ownerID tableName_ tableID_ rest h with
        | Throw e => Throw e
        | Normal returedTables =>
          Normal (if (hits >? 0)%Z then t :: returedTables else returedTables)
        end
      end
    end
  end.

(** [getJoinedTables(tableName=null, tableID=null, ownerPID=null)].  The
    parameter [ownerPID_] is tested only in the all-null shortcut; the loop
    reads [ownerID] instead. *)
Definition getJoinedTables (ownerID : GlobalLookup)
    (tableName_ tableID_ ownerPID_ : option string) (s : State)
    : Completion (list TableObject) * State :=
  match _joinedTables s with
  | None => (Normal [], set_joinedTables (Some []) s)
  | Some locs =>
    match tableName_, tableID_, ownerPID_ with
    | None, None, None => (Normal (omap (fun l => heap s !! l) locs), s)
    | _, _, _ => (getJoinedTables_loop ownerID tableName_ tableID_ locs (heap s), s)
    end
  end.

(** ** Join negotiation *)

(** [sendJoinTableRequest(tableObj)] *)
Definition sendJoinTableRequest (tableObj : TableObject) (s : State) : State :=
  let joinRequestObj := copyTable tableObj (buildCPMessage "jointablerequest") in
  emit (p2p_send joinRequestObj (option_list (ownerPID tableObj))) s.

(** [obj[count]] for a number [count].  A table object has the named
    properties of [TableObject] and no integer-keyed one, so the read yields
    [undefined]. *)
Definition indexed_property (obj : TableObject) (count : nat) : option TableObject := None.

(** The duplicate check of [joinTable]: the loop reads
    [currentRequestTable[count].ownerPID], where [currentRequestTable] is
    already the element [this._joinTableRequests[count]]. *)
Fixpoint joinTable_scan (requests : list TableObject) (count : nat) (tableObj : TableObject)
    : Completion bool :=
  match requests with
  | [] => Normal false
  | currentRequestTable :: rest =>
    match indexed_property currentRequestTable count with
    | None => Throw TypeError
    | Some entry =>
      if js_eq (ownerPID entry) (ownerPID tableObj) && js_eq (tableID entry) (tableID tableObj)
      then Normal true
      else joinTable_scan rest (S count) tableObj
    end
  end.

(** [joinTable(tableObj = null, replyTimeout=20000)].  The body is a promise
    executor: it runs at once, and an error thrown inside it rejects the
    promise.  Returns the handle of the promise.  The source pushes
    [tableObj] onto the pending list and then attaches [_resolve], [_reject]
    and [joinTimeoutID] to that same object; the entry recorded here is the
    object as the call leaves it.  When the timer fires is not part of the
    state, so [replyTimeout] only documents the call. *)
Definition joinTable (tableObj : option TableObject) (replyTimeout : Z) (s : State)
    : nat * State :=
  let '(promise, s) := new_Promise s in
  if negb (connected s) then
    (promise, settle promise
       (Rejected (RThrown (Error "Peer-to-peer network connection not established."))) s)
  else if negb (isValidTable tableObj) then (promise, settle promise (Rejected RNull) s)
  else
    let tableObj := default new_Object tableObj in
    let slotAvailable :=
      existsb (fun required => String.eqb required "*" || String.eqb required (privateID s))
        (default [] (requiredPID tableObj)) in
    if negb slotAvailable then (promise, settle promise (Rejected RNull) s)
    else
      let requests := default [] (_joinTableRequests s) in
      let s := set_joinTableRequests (Some requests) s in
      match joinTable_scan requests 0 tableObj with
      | Throw e => (promise, settle promise (Rejected (RThrown e)) s)
      | Normal true => (promise, settle promise (Rejected RNull) s)
      | Normal false =>
        let s := sendJoinTableRequest tableObj s in
        let request := set_request promise (next_timer s) tableObj in
        let '(_, s) := setTimer (JoinTimeout request) s in
        (promise, set_joinTableRequests (Some (requests ++ [request])) s)
      end.

(** The value of [this] inside a function.  A method called on the instance
    has the instance; a function handed to [setTimeout] as a bare reference
    (as [joinTable] hands over [this.onJoinTableRequestTimeout]) is called
    by the timer host with the host's own object, of which only two facts
    matter here: whether it has a callable [debug] and a callable
    [dispatchEvent]. *)
Inductive Receiver :=
| ThisInstance
| ThisHost (has_debug has_dispatchEvent : bool).

(** A browser window: no [debug] function, and [dispatchEvent] of its own. *)
Definition browser_window : Receiver := ThisHost false true.

(** First pending request with the identity of [tableObj], with its index. *)
Fixpoint find_request (requestsArray : list TableObject) (tableObj : TableObject)
    (count : nat) : option (nat * TableObject) :=
  match requestsArray with
  | [] => None
  | requestObj :: rest =>
    if js_eq (tableID tableObj) (tableID requestObj) &&
       js_eq (tableName tableObj) (tableName requestObj) &&
       js_eq (ownerPID tableObj) (ownerPID requestObj)
    then Some (count, requestObj)
    else find_request rest tableObj (S count)
  end.

(** [onJoinTableRequestTimeout(tableObj, context)].  The pending requests
    are read from [context]; [debug] and [dispatchEvent] are called on
    [this]. *)
Definition onJoinTableRequestTimeout (this : Receiver) (tableObj : TableObject)
    (context : State) : Completion unit * State :=
  match this with
  | ThisHost false _ => (Throw TypeError, context)
  | _ =>
    match _joinTableRequests context with
    | None => (Throw TypeError, context)
    | Some requestsArray =>
      match find_request requestsArray tableObj 0 with
      | None => (Normal tt, context)
      | Some (count, requestObj) =>
        let s := set_joinTableRequests (Some (delete count requestsArray)) context in
        let event := mkEvent "jointabletimeout" (EvTable requestObj) in
        let dispatched :=
          match this with
          | ThisInstance => Normal (emit (dispatchEvent event) s)
          | ThisHost _ true => Normal (emit (host_dispatchEvent event) s)
          | ThisHost _ false => Throw TypeError
          end in
        match dispatched with
        | Throw e => (Throw e, s)
        | Normal s =>
          match _reject requestObj with
          | None => (Throw TypeError, s)
          | Some promise => (Normal tt, settle promise (Rejected RNull) s)
          end
        end
      end
    end
  end.

(** ** Protocol dispatcher *)

(** [isCPMessage(message)] *)
Definition isCPMessage (message_ : TableObject) : bool := js_truthy (cpMsg message_).

(** [isCPMsgEvent(event)].  An inbound event is [None] when [event.data] or
    [event.data.result] is not an object; a [null] along the path makes a
    property read throw, which the function catches and answers [false]. *)
Definition isCPMsgEvent (event : option Result) : bool :=
  match event with
  | Some result =>
    match data result with
    | Some message_ => isCPMessage message_
    | None => false
    end
  | None => false
  end.

(** The inner loop of the [jointablerequest] case, on the table object it
    mutates: [count2] runs over [currentTable.requiredPID] while entries are
    spliced out of that same array.  Each pass moves [count2] one up and the
    array never grows, so the loop condition is tested at most once more than
    the array is long at entry; that number is the [fuel] the caller gives.
    Returns the table as left by the loop and the effects in order. *)
Fixpoint jointablerequest_slots (fuel count2 : nat) (self sender : string)
    (ownEvent : CPEvent) (currentTable : TableObject)
    : Completion unit * TableObject * list Effect :=
  match fuel with
  | 0 => (Normal tt, currentTable, [])
  | S fuel =>
    match requiredPID currentTable with
    | None => (Throw TypeError, currentTable, [])
    | Some required =>
      match required !! count2 with
      | None => (Normal tt, currentTable, [])
      | Some slot =>
        if String.eqb slot sender || String.eqb slot "*" then
          let currentTable := set_requiredPID (Some (delete count2 required)) currentTable in
          match joinedPID currentTable with
          | None => (Throw TypeError, currentTable, [])
          | Some joined =>
            let currentTable := set_joinedPID (Some (joined ++ [sender])) currentTable in
            let joinResponse := copyTable currentTable (buildCPMessage "jointable") in
            let effects :=
              [p2p_send joinResponse (createTablePIDList self (joined ++ [sender]));
               dispatchEvent ownEvent] in
            let '(c, t, rest) :=
              jointablerequest_slots fuel (S count2) self sender ownEvent currentTable in
            (c, t, effects ++ rest)
          end
        else jointablerequest_slots fuel (S count2) self sender ownEvent currentTable
      end
    end
  end.

Definition emit_all (es : list Effect) (s : State) : State := foldl (fun s e => emit e s) s es.

(** The outer loop of the [jointablerequest] case over [_joinedTables]. *)
Fixpoint jointablerequest_tables (locs : list nat) (message_ : TableObject) (sender : string)
    (ownEvent : CPEvent) (s : State) : Completion unit * State :=
  match locs with
  | [] => (Normal tt, s)
  | l :: rest =>
    match heap s !! l with
    | None => (Throw TypeError, s)
    | Some currentTable =>
      if js_eq_str (ownerPID currentTable) (privateID s) then
        let '(c, currentTable, effects) :=
          if js_eq (tableID currentTable) (tableID message_) &&
             js_eq (tableName currentTable) (tableName message_)
          then jointablerequest_slots (S (length (default [] (requiredPID currentTable)))) 0
                 (privateID s) sender ownEvent currentTable
          else (Normal tt, currentTable, []) in
        let s := emit_all effects (set_heap (<[l := currentTable]> (heap s)) s) in
        match c with
        | Throw e => (Throw e, s)
        | Normal _ =>
          match requiredPID currentTable with
          | None => (Throw TypeError, s)
          | Some required =>
            let s := if Nat.ltb 0 (length required) then set_openTables true s else s in
            jointablerequest_tables rest message_ sender ownEvent s
          end
        end
      else jointablerequest_tables rest message_ sender ownEvent s
    end
  end.

(** First joined table with the [tableID] and [tableName] of the message. *)
Fixpoint find_by_id_name (locs : list nat) (h : list TableObject) (message_ : TableObject)
    (count : nat) : Completion (option nat) :=
  match locs with
  | [] => Normal None
  | l :: rest =>
    match h !! l with
    | None => Throw TypeError
    | Some currentTable =>
      if js_eq (tableID currentTable) (tableID message_) &&
         js_eq (tableName currentTable) (tableName message_)
      then Normal (Some count)
      else find_by_id_name rest h message_ (S count)
    end
  end.

(** First pending request owned by the sender with the [tableID] and
    [tableName] of the message. *)
Fixpoint find_accepted (requests : list TableObject) (sender : string) (message_ : TableObject)
    (count : nat) : option (nat * TableObject) :=
  match requests with
  | [] => None
  | requestObj :: rest =>
    if js_eq_str (ownerPID requestObj) sender &&
       js_eq (tableID requestObj) (tableID message_) &&
       js_eq (tableName requestObj) (tableName message_)
    then Some (count, requestObj)
    else find_accepted rest sender message_ (S count)
  end.

(** The [jointable] case. *)
Definition handle_jointable (result : Result) (message_ : TableObject) (ownEvent : CPEvent)
    (s : State) : Completion unit * State :=
  let newTable := copyTable message_ new_Object in
  let locs := default [] (_joinedTables s) in
  let s := set_joinedTables (Some locs) s in
  match find_by_id_name locs (heap s) message_ 0 with
  | Throw e => (Throw e, s)
  | Normal (Some count) =>
    let l := length (heap s) in
    let s := set_heap (heap s ++ [newTable]) s in
    let s := set_joinedTables (Some (<[count := l]> locs)) s in
    (Normal tt, emit (dispatchEvent ownEvent) s)
  | Normal None =>
    match _joinTableRequests s with
    | None => (Throw TypeError, s)
    | Some requests =>
      match find_accepted requests (from result) message_ 0 with
      | None => (Normal tt, s)
      | Some (count, requestObj) =>
        let s := set_joinTableRequests (Some (delete count requests)) s in
        let s := clearTimer (joinTimeoutID requestObj) s in
        let l := length (heap s) in
        let s := set_heap (heap s ++ [newTable]) s in
        let s := set_joinedTables (Some (locs ++ [l])) s in
        let s := emit (dispatchEvent ownEvent) s in
        match _resolve requestObj with
        | None => (Throw TypeError, s)
        | Some promise => (Normal tt, settle promise Fulfilled s)
        end
      end
    end
  end.

(** Index of the first entry of a list of peer identifiers equal to [pid]. *)
Fixpoint index_of (pid : string) (l : list string) (count2 : nat) : option nat :=
  match l with
  | [] => None
  | x :: rest => if String.eqb x pid then Some count2 else index_of pid rest (S count2)
  end.

(** The [leavetable] case. *)
Fixpoint leavetable_tables (locs : list nat) (message_ : TableObject) (sender : string)
    (ownEvent : CPEvent) (s : State) : Completion unit * State :=
  match locs with
  | [] => (Normal tt, s)
  | l :: rest =>
    match heap s !! l with
    | None => (Throw TypeError, s)
    | Some currentTable =>
      if js_eq (tableID currentTable) (tableID message_) &&
         js_eq (tableName currentTable) (tableName message_)
      then
        match joinedPID currentTable with
        | None => (Throw TypeError, s)
        | Some joined =>
          match index_of sender joined 0 with
          | Some count2 =>
            let currentTable := set_joinedPID (Some (delete count2 joined)) currentTable in
            let s := set_heap (<[l := currentTable]> (heap s)) s in
            (Normal tt, emit (dispatchEvent ownEvent) s)
          | None => leavetable_tables rest message_ sender ownEvent s
          end
        end
      else leavetable_tables rest message_ sender ownEvent s
    end
  end.

(** [handleP2PMessage(event)] *)
Definition handleP2PMessage (event : option Result) (s : State) : Completion unit * State :=
  if negb (isCPMsgEvent event) then (Normal tt, s)
  else
    match event with
    | None => (Normal tt, s)
    | Some result =>
      let message_ := default new_Object (data result) in
      let messageType := default "" (cpMsg message_) in
      let ownEvent := mkEvent messageType (EvResult result) in
      if String.eqb messageType "newtable" then
        if captureNewTables s then
          let '(captured, s) := captureTable result s in
          if captured then (Normal tt, emit (dispatchEvent ownEvent) s) else (Normal tt, s)
        else (Normal tt, s)
      else if String.eqb messageType "jointablerequest" then
        if negb (openTables s) then (Normal tt, s)
        else
          let s := set_openTables false s in
          match _joinedTables s with
          | None => (Throw TypeError, s)
          | Some locs => jointablerequest_tables locs message_ (from result) ownEvent s
          end
      else if String.eqb messageType "jointable" then
        handle_jointable result message_ ownEvent s
      else if String.eqb messageType "tablemsg" then
        (Normal tt, emit (dispatchEvent ownEvent) s)
      else if String.eqb messageType "leavetable" then
        let locs := default [] (_joinedTables s) in
        let s := set_joinedTables (Some locs) s in
        leavetable_tables locs message_ (from result) ownEvent s
      else (Normal tt, s)
    end.

(** ** The instance as a transition system *)

(** A timer goes off.  A beacon keeps running and announces the table object
    it was started with; a join timeout runs once, with [this] bound to the
    timer host. *)
Definition timer_fires (id : nat) (host : Receiver) (s : State) : Completion unit * State :=
  match list_find (fun t => t.1 = id) (timers s) with
  | None => (Normal tt, s)
  | Some (_, (_, BeaconTick l)) =>
    match heap s !! l with
    | Some tableObj => announceTable tableObj s
    | None => (Normal tt, s)
    end
  | Some (_, (_, JoinTimeout tableObj)) =>
    onJoinTableRequestTimeout host tableObj (clearTimer (Some id) s)
  end.

(** Everything that can happen to an instance: a call of its public
    interface by the application, an inbound notification, or a timer.  What
    the application does on its own to a table object it holds is not code of
    the instance and is not a call. *)
Inductive Call :=
| Start (connects : bool)
| SetCaptureNewTables (captureSet : bool)
| SetMaxCapturedTables (maxSet : Z)
| SetMaxCapturesPerPeer (maxSet : Z)
| SetBeaconInterval (intervalMS : Z)
| CreateTable (tableName_ : option string) (players : Players) (tableInfo_ : option Info)
    (tableID_ random : option string) (activateBeacon : bool)
| AnnounceTable (l : nat)
| JoinTable (tableObj : option TableObject) (replyTimeout : Z)
| SendToTable (tableObj : option TableObject) (message_ : option string)
| LeaveJoinedTable (tableObj : option TableObject)
| GetJoinedTables (ownerID : GlobalLookup) (tableName_ tableID_ ownerPID_ : option string)
| Message (event : option Result)
| TimerFires (id : nat) (host : Receiver).

(** The state after a call, whether it returned or threw. *)
Definition exec (c : Call) (s : State) : State :=
  match c with
  | Start connects => set_connected connects s
  | SetCaptureNewTables b => set_newTableCapture b s
  | SetMaxCapturedTables n => set_maxCapturedTables (Some n) s
  | SetMaxCapturesPerPeer n => set_maxCapturesPerPeer (Some n) s
  | SetBeaconInterval n => set_beaconInterval (Some n) s
  | CreateTable n p i t r b => (createTable n p i t r b s).2
  | AnnounceTable l =>
    match heap s !! l with
    | Some tableObj => (announceTable tableObj s).2
    | None => s
    end
  | JoinTable t r => (joinTable t r s).2
  | SendToTable t m => (sendToTable t m s).2
  | LeaveJoinedTable t => (leaveJoinedTable t s).2
  | GetJoinedTables g n i o => (getJoinedTables g n i o s).2
  | Message e => (handleP2PMessage e s).2
  | TimerFires id host => (timer_fires id host s).2
  end.

Definition run (cs : list Call) (s : State) : State := foldl (fun s c => exec c s) s cs.

(** * Vocabulary of the properties *)

(** Number of cached entries the scan attributes to the announcer. *)
Definition entries_of (sender : string) (cache : list TableObject) : nat :=
  length (filter (fun e => js_eq_str (ownerPID e) sender = true) cache).

(** A cached entry of the announcer with the announced [tableID]. *)
Definition duplicate_of (r : Result) (cache : list TableObject) : Prop :=
  exists e, e ∈ cache /\ js_eq_str (ownerPID e) (from r) = true /\
    js_eq (tableID e) (tableID (default new_Object (data r))) = true.

(** Whether some slot of the table is open to the local peer. *)
Definition slotAvailable (self : string) (tableObj : TableObject) : bool :=
  existsb (fun required => String.eqb required "*" || String.eqb required self)
    (default [] (requiredPID tableObj)).

(** Whether a join request for the [(ownerPID, tableID)] pair of the table is
    pending. *)
Definition pending_for (tableObj : TableObject) (s : State) : bool :=
  existsb (fun request => js_eq (ownerPID request) (ownerPID tableObj) &&
                          js_eq (tableID request) (tableID tableObj))
    (default [] (_joinTableRequests s)).

(** The events the instance has dispatched to its own listeners so far. *)
Definition dispatched (s : State) : list CPEvent :=
  omap (fun e => match e with dispatchEvent ev => Some ev | _ => None end) (log s).

(** The announcements handed to the transport's [broadcast] so far. *)
Definition broadcasts (s : State) : list TableObject :=
  omap (fun e => match e with p2p_broadcast msg => Some msg | _ => None end) (log s).

(** The [jointable] updates handed to the transport's [send] so far. *)
Definition sends (s : State) : list (TableObject * list string) :=
  omap (fun e => match e with p2p_send msg to => Some (msg, to) | _ => None end) (log s).

(** Whether a table passes the supplied filters, in the words of the
    specification: every filter that is not null must equal the table's
    field. *)
Definition matches_filters (tableName_ tableID_ ownerPID_ : option string) (t : TableObject)
    : bool :=
  match tableName_ with Some _ => js_eq (tableName t) tableName_ | None => true end &&
  match tableID_ with Some _ => js_eq (tableID t) tableID_ | None => true end &&
  match ownerPID_ with Some _ => js_eq (ownerPID t) ownerPID_ | None => true end.

(** [getJoinedTables] as the specification describes it. *)
Definition getJoinedTables_spec (tableName_ tableID_ ownerPID_ : option string) (s : State)
    : list TableObject :=
  List.filter (matches_filters tableName_ tableID_ ownerPID_) (joinedTables s).

(** The eviction property as the specification words it, for one call. *)
Definition evicts_oldest (r : Result) (s : State) : Prop :=
  Z.of_nat (length (announcedTables s)) = maxCapturedTables s ->
  (captureTable r s).1 = true ->
  exists newEntry kept oldest,
    data r = Some newEntry /\
    announcedTables s = kept ++ [oldest] /\
    announcedTables (captureTable r s).2 = newEntry :: kept.



(** The table at [l] is owned by [self] and still has a slot. *)
Definition owned_and_open (self : string) (h : list TableObject) (l : nat) : bool :=
  match h !! l with
  | Some t => js_eq_str (ownerPID t) self && Nat.ltb 0 (length (default [] (requiredPID t)))
  | None => false
  end.

(** The table object that [createTable] builds, before a beacon is attached. *)
Definition created_table (self : string) (tableName_ : option string) (players : Players)
    (tableInfo_ : option Info) (tableID_ random : option string) : TableObject :=
  mkTable None None tableName_
    (match tableID_ with Some i => Some i | None => random end)
    (Some self)
    (Some (match players with
           | PlayerCount n => replicate (Z.to_nat n) "*"
           | PlayerList l => l
           end))
    (Some [self])
    (Some (match tableInfo_ with Some i => i | None => InfoObj [] end))
    None None None None.

(** The error every public operation raises on an instance that is not
    connected. *)
Definition not_connected : JSError :=
  Error "Peer-to-peer network connection not established.".

(** [s'] differs from [s] at most in the table objects, the log and the flag
    [openTables]. *)
Definition same_but_tables (s s' : State) : Prop :=
  _connected s' = _connected s /\ privateID s' = privateID s /\
  _newTableCapture s' = _newTableCapture s /\
  _maxCapturedTables s' = _maxCapturedTables s /\
  _maxCapturesPerPeer s' = _maxCapturesPerPeer s /\
  _beaconInterval s' = _beaconInterval s /\
  _joinedTables s' = _joinedTables s /\
  _joinTableRequests s' = _joinTableRequests s /\
  _announcedTables s' = _announcedTables s /\
  timers s' = timers s /\ next_timer s' = next_timer s /\ promises s' = promises s.

(** Every entry of the registry refers to a table object. *)
Definition registry_ok (s : State) : Prop :=
  Forall (fun l => l < length (heap s)) (default [] (_joinedTables s)).

(** Some registered table has the [tableID] and [tableName] of the message. *)
Definition knows_table (message_ : TableObject) (s : State) : Prop :=
  exists l t, l ∈ default [] (_joinedTables s) /\ heap s !! l = Some t /\
    js_eq (tableID t) (tableID message_) = true /\
    js_eq (tableName t) (tableName message_) = true.

(** The pending join requests. *)
Definition pending (s : State) : list TableObject := default [] (_joinTableRequests s).

(** How a call can change the pending list: not at all, by taking one
    request out, or by putting the first request in. *)
Definition pending_step (s s' : State) : Prop :=
  pending s' = pending s \/
  (exists count, pending s' = delete count (pending s)) \/
  (pending s = [] /\ exists request, pending s' = [request]).

(** Whether a slot may be taken by [sender]: it names the sender or is the
    wildcard. *)
Definition slot_matches (sender slot : string) : bool :=
  String.eqb slot sender || String.eqb slot "*".

(** The slots of a list that [sender] may not take. *)
Definition slots_for_others (sender : string) (required : list string) : list string :=
  List.filter (fun slot => negb (slot_matches sender slot)) required.

(** What handling the notification [result] may hand to a collaborator: the
    event of the notification itself, to the listeners of the instance, and,
    for a join request only, a [jointable] update that does not go to the
    local peer.  Nothing is ever broadcast. *)
Definition answers (self : string) (result : Result) (e : Effect) : Prop :=
  let kind := default "" (cpMsg (default new_Object (data result))) in
  match e with
  | dispatchEvent ev => ev = mkEvent kind (EvResult result)
  | p2p_send msg to =>
      kind = "jointablerequest" /\ cpMsg msg = Some "jointable" /\
      (self ∉ to) /\ to = createTablePIDList self (default [] (joinedPID msg))
  | p2p_broadcast _ => False
  | host_dispatchEvent _ => False
  end.



(** The registry entry at index [count], the table object [t] at location
    [l], is the first whose table satisfies [P]. *)
Definition first_registered (P : TableObject -> bool) (s : State)
    (count l : nat) (t : TableObject) : Prop :=
  default [] (_joinedTables s) !! count = Some l /\ heap s !! l = Some t /\ P t = true /\
  forall j l' t', j < count -> default [] (_joinedTables s) !! j = Some l' ->
    heap s !! l' = Some t' -> P t' = false.

(** No table of the registry satisfies [P]. *)
Definition none_registered (P : TableObject -> bool) (s : State) : Prop :=
  forall l t, l ∈ default [] (_joinedTables s) -> heap s !! l = Some t -> P t = false.

(** Where the loop of the [leavetable] case ends: at a table with the
    identifier and name of the message whose [joinedPID] holds the sender, or
    whose [joinedPID] is missing, so that its length cannot be read. *)
Definition leaves_here (sender : string) (message_ t : TableObject) : bool :=
  js_eq (tableID t) (tableID message_) && js_eq (tableName t) (tableName message_) &&
  match joinedPID t with
  | Some joined => bool_decide (sender ∈ joined)
  | None => true
  end.

(** * Sample runs *)

(** A well-formed table as another peer announces it. *)
Definition sample_table (owner id name : string) (required : list string) : TableObject :=
  mkTable (Some "newtable") None (Some name) (Some id) (Some owner) (Some required)
    (Some [owner]) (Some (InfoObj [])) None None None None.

(** The [result] of a [newtable] notification sent by [sender] for a table
    whose [ownerPID] is [owner]. *)
Definition announcement (sender owner id : string) : Result :=
  mkResult sender (Some (sample_table owner id "lobby" ["*"])).

(** Feed a list of announcements to [captureTable], collecting the answers. *)
Definition capture_all (rs : list Result) (s : State) : list bool * State :=
  foldl (fun acc r => let '(b, s') := captureTable r acc.2 in (acc.1 ++ [b], s')) ([], s) rs.

(** An instance that has captured the table "1" of peer "P". *)
Definition one_captured : State := (captureTable (announcement "P" "P" "1") (new_CypherPoker "me")).2.

(** An instance with room for two announcements that has captured two. *)
Definition full_of_two : State :=
  (capture_all [announcement "P" "P" "1"; announcement "Q" "Q" "1"]
     (set_maxCapturedTables (Some 2%Z) (new_CypherPoker "me"))).2.

(** The local peer "me" once [start] has connected it. *)
Definition me_connected : State := set_connected true (new_CypherPoker "me").

(** The local peer after asking to join the table "1" of peer "A". *)
Definition one_pending : State :=
  (joinTable (Some (sample_table "A" "1" "ta" ["*"])) 20000 me_connected).2.

(** The table "2" of peer "B" as its owner reports it once "me" has joined. *)
Definition joined_table_of_B : TableObject :=
  mkTable (Some "jointable") None (Some "tb") (Some "2") (Some "B") (Some [])
    (Some ["B"; "me"]) (Some (InfoObj [])) None None None None.

(** The local peer owns the table "mine" and has joined the table of "B". *)
Definition two_joined : State :=
  run [Start true;
       CreateTable (Some "mine") (PlayerCount 1) None (Some "7") None false;
       JoinTable (Some (sample_table "B" "2" "tb" ["*"])) 20000;
       Message (Some (mkResult "B" (Some joined_table_of_B)))]
    (new_CypherPoker "me").

(** The local peer owns the table "mine" with two wildcard slots. *)
Definition owner_of_two_slots : State :=
  run [Start true; CreateTable (Some "mine") (PlayerCount 2) None (Some "7") None false]
    (new_CypherPoker "me").

(** Peer "R" asks to join the table "mine". *)
Definition request_from_R : Result :=
  mkResult "R"
    (Some (mkTable (Some "jointablerequest") None (Some "mine") (Some "7") (Some "me")
             (Some ["*"; "*"]) (Some ["me"]) (Some (InfoObj [])) None None None None)).

(** The owner's table "mine" had one slot, announced by a beacon, and peer
    "R" has taken it. *)
Definition owner_of_full_table : State :=
  run [Start true;
       CreateTable (Some "mine") (PlayerCount 1) None (Some "7") None true;
       Message (Some request_from_R)]
    (new_CypherPoker "me").


(** What follows: the beacon ticks, a notification and a second request
    come in, the application creates another table and announces by hand. *)
Definition aftermath : list Call :=
  [TimerFires 0 browser_window;
   Message (Some (mkResult "B" (Some joined_table_of_B)));
   Message (Some request_from_R);
   CreateTable (Some "other") (PlayerList ["*"; "Q"]) None None (Some "42") true;
   AnnounceTable 0;
   TimerFires 0 browser_window].

(** The local peer after asking to join the table "2" of peer "B". *)
Definition asked_B : State :=
  run [Start true; JoinTable (Some (sample_table "B" "2" "tb" ["*"])) 20000]
    (new_CypherPoker "me").

(** The local peer in the table "2" of peer "B", with nothing pending. *)
Definition in_table_of_B : State :=
  run [Message (Some (mkResult "B" (Some joined_table_of_B)))] asked_B.

(** A later update of the table "2", sent by peer "C". *)
Definition update_from_C : Result :=
  mkResult "C"
    (Some (mkTable (Some "jointable") None (Some "tb") (Some "2") (Some "C") (Some ["*"])
             (Some ["C"]) (Some (InfoObj [])) None None None None)).

(** The local peer owns the table "mine" with three wildcard slots. *)
Definition owner_of_three_slots : State :=
  run [Start true; CreateTable (Some "mine") (PlayerCount 3) None (Some "7") None false]
    (new_CypherPoker "me").

(** The local peer owns the table "mine" with slots for "Q", for anyone, for
    "R" and for anyone. *)
Definition owner_of_mixed_slots : State :=
  run [Start true;
       CreateTable (Some "mine") (PlayerList ["Q"; "*"; "R"; "*"]) None (Some "7") None false]
    (new_CypherPoker "me").

(** The table a peer offers with one seat, reserved for [slot], and the same
    table once a second peer has taken the seat. *)
Definition offered_table (owner name tid slot : string) : TableObject :=
  created_table owner (Some name) (PlayerList [slot]) None (Some tid) None.

Definition seated_table (owner joiner name tid : string) : TableObject :=
  mkTable None None (Some name) (Some tid) (Some owner) (Some []) (Some [owner; joiner])
    (Some (InfoObj [])) None None None None.

(** A notification as the transport delivers it: the payload one peer has
    sent or broadcast, reaching another with the sender's identifier. *)
Definition delivers (sender : string) (payload : TableObject) : Call :=
  Message (Some (mkResult sender (Some payload))).

(** An instance that has captured five tables of peer "P". *)
Definition five_of_P : State :=
  (capture_all (announcement "P" "P" <$> ["1"; "2"; "3"; "4"; "5"]) (new_CypherPoker "me")).2.



(** * Properties *)

(** ** The announcement cache *)

Section AnnouncementCache.

Implicit Types (s : State) (r : Result) (cache : list TableObject).

Lemma entries_of_cons sender e cache :
  entries_of sender (e :: cache) =
  if js_eq_str (ownerPID e) sender then S (entries_of sender cache) else entries_of sender cache.
Proof.
  unfold entries_of. rewrite filter_cons.
  destruct (js_eq_str (ownerPID e) sender); case_decide; simpl; congruence.
Qed.

(** The scan lets an announcement through when the announcer has no entry
    with that [tableID] and the count of its entries, added to the running
    count, does not exceed the quota. *)
Lemma captureTable_scan_passes cache r maxPerPeer n :
  ~ duplicate_of r cache ->
  (Z.of_nat (n + entries_of (from r) cache) <= maxPerPeer)%Z ->
  captureTable_scan cache r maxPerPeer n = false.
Proof.
  revert n. induction cache as [|e cache IH]; intros n Hdup Hle; simpl; [done|].
  rewrite entries_of_cons in Hle.
  assert (Hrest : ~ duplicate_of r cache).
  { intros (x & Hx & Ho & Hi). apply Hdup. exists x. split; [by right | done]. }
  destruct (js_eq_str (ownerPID e) (from r)) eqn:Ho.
  - destruct (js_eq (tableID e) _) eqn:Hi.
    + exfalso. apply Hdup. exists e. split; [by left | done].
    + destruct (Z.gtb_spec (Z.of_nat (S n)) maxPerPeer); [lia|].
      apply IH; [done | lia].
  - by apply IH.
Qed.

(** The scan stops an announcement whose [tableID] the announcer already has
    in the cache. *)
Lemma captureTable_scan_duplicate cache r maxPerPeer n :
  duplicate_of r cache -> captureTable_scan cache r maxPerPeer n = true.
Proof.
  revert n. induction cache as [|e cache IH]; intros n (x & Hx & Ho & Hi).
  - by apply elem_of_nil in Hx.
  - simpl. apply elem_of_cons in Hx as [->|Hx].
    + by rewrite Ho, Hi.
    + destruct (js_eq_str (ownerPID e) (from r)); [|apply IH; by exists x].
      destruct (js_eq (tableID e) _); [done|].
      destruct (_ >? _)%Z; [done|]. apply IH. by exists x.
Qed.

(** The scan stops an announcement when the announcer's cached entries,
    added to the running count, exceed the quota. *)
Lemma captureTable_scan_over_quota cache r maxPerPeer n :
  1 <= entries_of (from r) cache ->
  (maxPerPeer < Z.of_nat (n + entries_of (from r) cache))%Z ->
  captureTable_scan cache r maxPerPeer n = true.
Proof.
  revert n. induction cache as [|e cache IH]; intros n Hone Hgt.
  - cbn in Hone. lia.
  - simpl. rewrite entries_of_cons in Hone, Hgt.
    destruct (js_eq_str (ownerPID e) (from r)); [|by apply IH].
    destruct (js_eq (tableID e) _); [done|].
    destruct (Z.gtb_spec (Z.of_nat (S n)) maxPerPeer); [done|].
    apply IH; lia.
Qed.

(** What [captureTable] does to the state when it refuses. *)
Lemma captureTable_false r s :
  (captureTable r s).1 = false ->
  (captureTable r s).2 = set_announcedTables (Some (announcedTables s)) s.
Proof.
  unfold captureTable, announcedTables.
  destruct (negb (isValidTable (data r))); [done|].
  destruct (captureTable_scan _ _ _ _); [done|]. simpl. discriminate.
Qed.

(** What [captureTable] does to the cache when it accepts. *)
Lemma captureTable_true r s :
  (captureTable r s).1 = true ->
  exists newEntry, data r = Some newEntry /\
    announcedTables (captureTable r s).2 =
      if (Z.of_nat (S (length (announcedTables s))) >? maxCapturedTables s)%Z
      then removelast (newEntry :: announcedTables s)
      else newEntry :: announcedTables s.
Proof.
  unfold captureTable, announcedTables, maxCapturedTables.
  destruct (isValidTable (data r)) eqn:Hv; cbn [negb]; [|done].
  destruct (captureTable_scan _ _ _ _); [done|]. intros _.
  destruct (data r) as [t|]; [|done].
  exists t. split; [done|]. cbn [snd default _announcedTables set_announcedTables _maxCapturedTables length].
  destruct (_ >? _)%Z; reflexivity.
Qed.

End AnnouncementCache.

(** C10.  Whenever [captureTable] returns false, the announcement cache read
    through [announcedTables] is entry for entry what it was before the call;
    the only change to the instance is that the lazily created array now
    exists, and an instance whose array existed is left identical. *)
Theorem C10_rejected_capture_leaves_cache (r : Result) (s : State) :
  (captureTable r s).1 = false ->
  announcedTables (captureTable r s).2 = announcedTables s /\
  (captureTable r s).2 = set_announcedTables (Some (announcedTables s)) s /\
  (forall cache, _announcedTables s = Some cache -> (captureTable r s).2 = s).
Proof.
  intros H. pose proof (captureTable_false r s H) as E.
  split; [by rewrite E|]. split; [done|].
  intros cache Hc. rewrite E. unfold announcedTables. rewrite Hc. simpl.
  destruct s; simpl in *. by rewrite Hc.
Qed.

Lemma C10_rejected_capture_leaves_cache_witness :
  (captureTable (announcement "P" "P" "1") one_captured).1 = false /\
  (announcedTables (captureTable (announcement "P" "P" "1") one_captured).2
     = announcedTables one_captured /\
   (captureTable (announcement "P" "P" "1") one_captured).2
     = set_announcedTables (Some (announcedTables one_captured)) one_captured /\
   (forall cache, _announcedTables one_captured = Some cache ->
      (captureTable (announcement "P" "P" "1") one_captured).2 = one_captured)).
Proof.
  split; [reflexivity|].
  apply (C10_rejected_capture_leaves_cache (announcement "P" "P" "1") one_captured).
  reflexivity.
Defined.

(** [captureTable] accepts a valid announcement when the announcer has no
    cached entry with that [tableID] and at most [maxCapturesPerPeer] cached
    entries: the scan refuses only once the count has gone past the quota. *)
Lemma captureTable_accepts_up_to_quota (r : Result) (s : State) :
  isValidTable (data r) = true ->
  ~ duplicate_of r (announcedTables s) ->
  (Z.of_nat (entries_of (from r) (announcedTables s)) <= maxCapturesPerPeer s)%Z ->
  (captureTable r s).1 = true.
Proof.
  intros Hv Hd Hq. unfold captureTable. rewrite Hv. cbn [negb].
  fold (announcedTables s).
  rewrite captureTable_scan_passes; [done | done |].
  unfold maxCapturesPerPeer in *. simpl. exact Hq.
Qed.

(** [captureTable] refuses an announcement whose [tableID] is that of a
    cached entry whose [ownerPID] is the announcer. *)
Lemma captureTable_rejects_duplicate (r : Result) (s : State) :
  duplicate_of r (announcedTables s) -> (captureTable r s).1 = false.
Proof.
  intros Hd. unfold captureTable.
  destruct (negb (isValidTable (data r))); [done|].
  fold (announcedTables s). by rewrite captureTable_scan_duplicate.
Qed.

(** C2.  On a fresh instance with the default quota of 5, peer "P" announces
    seven distinct tables of its own.  The first five are captured, and so is
    the sixth: the cache then holds six entries of "P".  Only the seventh
    announcement is refused. *)
Theorem C2_sixth_capture_accepted :
  let incoming := announcement "P" "P" <$> ["1"; "2"; "3"; "4"; "5"; "6"; "7"] in
  let s := new_CypherPoker "me" in
  maxCapturesPerPeer s = 5%Z /\
  (capture_all incoming s).1 = [true; true; true; true; true; true; false] /\
  entries_of "P" (announcedTables (capture_all incoming s).2) = 6.
Proof. vm_compute. done. Qed.

(** C5.  Peer "P" sends the same announcement twice; the table in it names
    "Q" as its [ownerPID].  Both calls of [captureTable] return true and the
    cache holds the table twice: the entry stored by the first call is the
    payload as sent, with [ownerPID] "Q", so the scan of the second call does
    not count it as an entry of "P". *)
Theorem C5_second_capture_accepted :
  let r := announcement "P" "Q" "1" in
  let s := new_CypherPoker "me" in
  (capture_all [r; r] s).1 = [true; true] /\
  announcedTables (capture_all [r; r] s).2
    = [sample_table "Q" "1" "lobby" ["*"]; sample_table "Q" "1" "lobby" ["*"]].
Proof. vm_compute. done. Qed.

(** C8 as stated fails when the capacity is zero: the empty cache is then
    full; the announcement is accepted, pushed and popped again, so no
    earlier entry leaves and the new one is not at index 0. *)
Lemma C8_zero_capacity_counterexample :
  let s := set_maxCapturedTables (Some 0%Z) (new_CypherPoker "me") in
  let r := announcement "P" "P" "1" in
  (captureTable r s).1 = true /\
  announcedTables (captureTable r s).2 !! 0 = None /\
  ~ evicts_oldest r s.
Proof.
  split; [reflexivity|]. split; [reflexivity|].
  intros H. destruct H as (n & kept & oldest & _ & Hk & _); [reflexivity..|].
  by destruct kept.
Qed.

(** C8.  When the cache holds [maxCapturedTables] entries, that capacity is
    at least 1, and [captureTable] accepts an announcement, the cache was
    [kept ++ [oldest]] and becomes [newEntry :: kept]: the entry at the
    highest index is the one removed, the announced table is at index 0 and
    the entries in between keep their order. *)
Theorem C8_full_cache_evicts_oldest (r : Result) (s : State) :
  (1 <= maxCapturedTables s)%Z ->
  Z.of_nat (length (announcedTables s)) = maxCapturedTables s ->
  (captureTable r s).1 = true ->
  exists newEntry kept oldest,
    data r = Some newEntry /\
    announcedTables s = kept ++ [oldest] /\
    announcedTables (captureTable r s).2 = newEntry :: kept.
Proof.
  intros Hmax Hlen Hacc.
  destruct (captureTable_true r s Hacc) as (newEntry & Hd & Hc).
  destruct (Z.gtb_spec (Z.of_nat (S (length (announcedTables s)))) (maxCapturedTables s)); [|lia].
  destruct (announcedTables s) as [|e cache] eqn:Hcache using rev_ind; [simpl in Hlen; lia|].
  exists newEntry, cache, e. split; [done|]. split; [done|].
  rewrite Hc. by rewrite app_comm_cons, removelast_last.
Qed.

Lemma C8_full_cache_evicts_oldest_witness :
  exists newEntry kept oldest,
    data (announcement "R" "R" "1") = Some newEntry /\
    announcedTables full_of_two = kept ++ [oldest] /\
    announcedTables (captureTable (announcement "R" "R" "1") full_of_two).2 = newEntry :: kept.
Proof.
  apply (C8_full_cache_evicts_oldest (announcement "R" "R" "1") full_of_two);
    [vm_compute; discriminate | reflexivity | reflexivity].
Defined.

(** ** Join negotiation *)

Section JoinNegotiation.

Implicit Types (s : State) (tableObj : TableObject).

(** Settling the promise that was created last. *)
Lemma settle_new_Promise s v :
  settle (new_Promise s).1 v (new_Promise s).2 = set_promises (promises s ++ [v]) s.
Proof.
  unfold settle, new_Promise. cbn [fst snd promises set_promises].
  rewrite lookup_app_r, Nat.sub_diag by lia. cbn [lookup list_lookup].
  unfold set_promises. simpl. f_equal.
  rewrite insert_app_r_alt, Nat.sub_diag by lia. done.
Qed.

Lemma slotAvailable_false self tableObj required :
  requiredPID tableObj = Some required ->
  Forall (fun slot => slot <> "*" /\ slot <> self) required ->
  slotAvailable self tableObj = false.
Proof.
  intros Hr H. unfold slotAvailable. rewrite Hr. simpl. clear Hr.
  induction H as [|slot rest [Hw Hs] _ IH]; [done|]. simpl.
  apply String.eqb_neq in Hw. apply String.eqb_neq in Hs. by rewrite Hw, Hs, IH.
Qed.

(** With a request pending, the duplicate check throws on its first pass. *)
Lemma joinTable_scan_throws requests count tableObj :
  requests <> [] -> joinTable_scan requests count tableObj = Throw TypeError.
Proof. by destruct requests. Qed.

(** The calls of [joinTable] that get past the two guards and the slot test
    while some request is pending: the promise is rejected with the
    [TypeError] of the duplicate check, and nothing else happens. *)
Lemma joinTable_while_pending tableObj replyTimeout s requests :
  connected s = true ->
  isValidTable (Some tableObj) = true ->
  slotAvailable (privateID s) tableObj = true ->
  _joinTableRequests s = Some requests -> requests <> [] ->
  (joinTable (Some tableObj) replyTimeout s).2
    = set_promises (promises s ++ [Rejected (RThrown TypeError)]) s.
Proof.
  intros Hc Hv Hs Hr Hne. unfold joinTable.
  destruct (new_Promise s) as [promise s'] eqn:Hp.
  assert (Hs' : s' = (new_Promise s).2) by by rewrite Hp.
  assert (Hp' : promise = (new_Promise s).1) by by rewrite Hp.
  assert (connected s' = true) as -> by (subst s'; exact Hc).
  rewrite Hv. cbn [negb default id].
  fold (slotAvailable (privateID s') tableObj).
  assert (privateID s' = privateID s) as -> by by subst s'.
  rewrite Hs. cbn [negb].
  assert (_joinTableRequests s' = Some requests) as -> by (subst s'; exact Hr).
  cbn [default id]. rewrite joinTable_scan_throws by done. cbn [snd].
  assert (set_joinTableRequests (Some requests) s' = s') as ->.
  { subst s'. unfold new_Promise, set_joinTableRequests, set_promises. simpl. by rewrite Hr. }
  subst. apply settle_new_Promise.
Qed.

(** The call of [joinTable] that succeeds: connected, valid table, an open
    slot and no request pending.  The join request goes to the owner, the
    timeout is started, the request is recorded, and the promise stays
    pending. *)
Lemma joinTable_first_request tableObj replyTimeout s :
  connected s = true ->
  isValidTable (Some tableObj) = true ->
  slotAvailable (privateID s) tableObj = true ->
  default [] (_joinTableRequests s) = [] ->
  let request := set_request (length (promises s)) (next_timer s) tableObj in
  let s' := (joinTable (Some tableObj) replyTimeout s).2 in
  (joinTable (Some tableObj) replyTimeout s).1 = length (promises s) /\
  _joinTableRequests s' = Some [request] /\
  log s' = log s ++ [p2p_send (copyTable tableObj (buildCPMessage "jointablerequest"))
                       (option_list (ownerPID tableObj))] /\
  timers s' = timers s ++ [(next_timer s, JoinTimeout request)] /\
  promises s' = promises s ++ [Pending].
Proof.
  intros Hc Hv Hs Hr. unfold joinTable.
  destruct (new_Promise s) as [promise s'] eqn:Hp.
  unfold new_Promise in Hp. injection Hp as <- <-.
  assert (connected (set_promises (promises s ++ [Pending]) s) = true) as -> by exact Hc.
  rewrite Hv. cbn [negb default id].
  fold (slotAvailable (privateID (set_promises (promises s ++ [Pending]) s)) tableObj).
  cbn [privateID set_promises]. rewrite Hs. cbn [negb _joinTableRequests set_promises].
  rewrite Hr. cbn [joinTable_scan]. simpl. done.
Qed.

End JoinNegotiation.

(** C9.  For a valid table whose [requiredPID] entries are all different
    from the wildcard and from the local peer identifier, [joinTable] returns
    a promise that is rejected, and the instance is otherwise untouched: the
    log of transport calls is what it was (no [send], no [broadcast]), no
    request is recorded and no timer started. *)
Theorem C9_no_matching_slot_rejects_without_sending
    (tableObj : TableObject) (required : list string) (replyTimeout : Z) (s : State) :
  isValidTable (Some tableObj) = true ->
  requiredPID tableObj = Some required ->
  Forall (fun slot => slot <> "*" /\ slot <> privateID s) required ->
  exists reason,
    promises (joinTable (Some tableObj) replyTimeout s).2
      !! (joinTable (Some tableObj) replyTimeout s).1 = Some (Rejected reason) /\
    log (joinTable (Some tableObj) replyTimeout s).2 = log s /\
    (joinTable (Some tableObj) replyTimeout s).2
      = set_promises (promises s ++ [Rejected reason]) s.
Proof.
  intros Hv Hr Hall.
  pose proof (slotAvailable_false (privateID s) tableObj required Hr Hall) as Hslot.
  assert (Hnew : forall v,
    promises (set_promises (promises s ++ [v]) s) !! length (promises s) = Some v).
  { intros v. cbn [promises set_promises].
    by rewrite lookup_app_r, Nat.sub_diag by lia. }
  unfold joinTable.
  destruct (new_Promise s) as [promise s'] eqn:Hp.
  assert (Hs' : s' = (new_Promise s).2) by by rewrite Hp.
  assert (Hp' : promise = (new_Promise s).1) by by rewrite Hp.
  destruct (connected s') eqn:Hc; cbn [negb].
  - rewrite Hv. cbn [negb default id].
    fold (slotAvailable (privateID s') tableObj).
    assert (privateID s' = privateID s) as -> by by subst s'.
    rewrite Hslot. cbn [negb fst snd]. exists RNull.
    rewrite Hp', Hs', settle_new_Promise. split; [apply Hnew | done].
  - cbn [fst snd]. eexists. rewrite Hp', Hs', settle_new_Promise.
    split; [apply Hnew | done].
Qed.

Lemma C9_no_matching_slot_rejects_without_sending_witness :
  exists reason,
    promises (joinTable (Some (sample_table "A" "1" "ta" ["B"; "C"])) 20000 me_connected).2
      !! (joinTable (Some (sample_table "A" "1" "ta" ["B"; "C"])) 20000 me_connected).1
      = Some (Rejected reason) /\
    log (joinTable (Some (sample_table "A" "1" "ta" ["B"; "C"])) 20000 me_connected).2
      = log me_connected /\
    (joinTable (Some (sample_table "A" "1" "ta" ["B"; "C"])) 20000 me_connected).2
      = set_promises (promises me_connected ++ [Rejected reason]) me_connected.
Proof.
  apply (C9_no_matching_slot_rejects_without_sending
           (sample_table "A" "1" "ta" ["B"; "C"]) ["B"; "C"] 20000 me_connected);
    [reflexivity | reflexivity |].
  repeat constructor; discriminate.
Defined.

Lemma dispatched_emit (e : Effect) (s : State) :
  dispatched (emit e s) =
  dispatched s ++ match e with dispatchEvent ev => [ev] | _ => [] end.
Proof. unfold dispatched, emit. simpl. rewrite omap_app. by destruct e. Qed.

Lemma dispatched_settle (p : nat) (v : PromiseState) (s : State) :
  dispatched (settle p v s) = dispatched s.
Proof. unfold settle. by destruct (promises s !! p) as [[]|]. Qed.

(** Called on the instance, [onJoinTableRequestTimeout] does what its
    documentation says: the first pending request with the identity of the
    table is removed, a [jointabletimeout] event carrying it is dispatched
    and its promise is rejected with [null]. *)
Lemma onJoinTableRequestTimeout_on_instance
    (tableObj requestObj : TableObject) (requests : list TableObject)
    (count promise : nat) (s : State) :
  _joinTableRequests s = Some requests ->
  find_request requests tableObj 0 = Some (count, requestObj) ->
  _reject requestObj = Some promise ->
  onJoinTableRequestTimeout ThisInstance tableObj s =
  (Normal tt,
   settle promise (Rejected RNull)
     (emit (dispatchEvent (mkEvent "jointabletimeout" (EvTable requestObj)))
        (set_joinTableRequests (Some (delete count requests)) s))).
Proof. intros Hr Hf Hp. unfold onJoinTableRequestTimeout. by rewrite Hr, Hf, Hp. Qed.

(** Called by a timer, with [this] bound to the host's object, the handler
    never reaches the listeners of the instance, whatever the host offers:
    without a [debug] function it throws at its first statement, and with
    one the event goes to the host's [dispatchEvent]. *)
Lemma onJoinTableRequestTimeout_on_host
    (has_debug has_dispatchEvent : bool) (tableObj : TableObject) (s : State) :
  dispatched (onJoinTableRequestTimeout (ThisHost has_debug has_dispatchEvent) tableObj s).2
    = dispatched s /\
  (has_debug = false ->
   onJoinTableRequestTimeout (ThisHost has_debug has_dispatchEvent) tableObj s
     = (Throw TypeError, s)).
Proof.
  split; [|by intros ->].
  unfold onJoinTableRequestTimeout.
  destruct has_debug; [|done].
  destruct (_joinTableRequests s) as [requests|]; [|done].
  destruct (find_request requests tableObj 0) as [[count requestObj]|]; [|done].
  destruct has_dispatchEvent; [|done].
  destruct (_reject requestObj); cbn [snd];
    rewrite ?dispatched_settle, dispatched_emit, app_nil_r; done.
Qed.

(** C4.  While the request for table "1" of peer "A" is pending, the
    connected peer asks to join the valid table "2" of peer "B", which has a
    wildcard slot and for which nothing is pending.  The promise is rejected
    with the [TypeError] of the duplicate check; no request is recorded, no
    message is sent and no timer is started. *)
Theorem C4_join_rejected_while_another_is_pending :
  let tableObj := sample_table "B" "2" "tb" ["*"] in
  let before := one_pending in
  let after := (joinTable (Some tableObj) 20000 before).2 in
  (connected before = true /\ isValidTable (Some tableObj) = true /\
   slotAvailable (privateID before) tableObj = true /\
   pending_for tableObj before = false) /\
  promises after !! (joinTable (Some tableObj) 20000 before).1
    = Some (Rejected (RThrown TypeError)) /\
  _joinTableRequests after = _joinTableRequests before /\
  log after = log before /\
  timers after = timers before.
Proof. vm_compute. done. Qed.

(** C1.  The peer has one pending join request, created by [joinTable], and
    no [jointable] notification arrives.  When the timer of the request goes
    off in a browser window, the handler throws at [this.debug]: the request
    stays in the pending list, the promise stays pending and nothing is
    dispatched.  Whatever object the timer host binds [this] to, no
    [jointabletimeout] event reaches the listeners of the instance. *)
Theorem C1_join_timeout_under_timer_host :
  let request := set_request 0 0 (sample_table "A" "1" "ta" ["*"]) in
  let after := timer_fires 0 browser_window one_pending in
  _joinTableRequests one_pending = Some [request] /\
  timers one_pending = [(0, JoinTimeout request)] /\
  after.1 = Throw TypeError /\
  _joinTableRequests after.2 = Some [request] /\
  promises after.2 = [Pending] /\
  log after.2 = log one_pending /\
  forall has_debug has_dispatchEvent,
    dispatched (timer_fires 0 (ThisHost has_debug has_dispatchEvent) one_pending).2 = [].
Proof.
  repeat split; try reflexivity.
  intros [] []; reflexivity.
Qed.

(** ** Table registry *)

(** With [ownerID] unresolvable, a filtered query on a registry that holds a
    table throws before it looks at the owner. *)
Lemma getJoinedTables_throws (tableName_ tableID_ ownerPID_ : option string)
    (l : nat) (locs : list nat) (t : TableObject) (s : State) :
  _joinedTables s = Some (l :: locs) -> heap s !! l = Some t ->
  (tableName_, tableID_, ownerPID_) <> (None, None, None) ->
  getJoinedTables Unresolvable tableName_ tableID_ ownerPID_ s = (Throw ReferenceError, s).
Proof.
  intros Hj Hl Hf. unfold getJoinedTables. rewrite Hj.
  destruct tableName_, tableID_, ownerPID_; try done; simpl; by rewrite Hl.
Qed.

(** C3.  The registry holds the peer's own table "mine" and the joined table
    "tb" of peer "B".  Asked for the tables named "tb", [getJoinedTables]
    throws a [ReferenceError] where the specification returns the table of
    "B".  Asked for the tables owned by "B", it differs from the
    specification however the stray identifier [ownerID] resolves: it throws,
    or returns nothing, or returns both tables. *)
Theorem C3_filtered_query_diverges :
  let mine := mkTable None None (Some "mine") (Some "7") (Some "me") (Some ["*"])
                (Some ["me"]) (Some (InfoObj [])) None None None None in
  let theirs := copyTable joined_table_of_B new_Object in
  joinedTables two_joined = [mine; theirs] /\
  getJoinedTables_spec (Some "tb") None None two_joined = [theirs] /\
  (getJoinedTables Unresolvable (Some "tb") None None two_joined).1 = Throw ReferenceError /\
  getJoinedTables_spec None None (Some "B") two_joined = [theirs] /\
  (getJoinedTables Unresolvable None None (Some "B") two_joined).1 = Throw ReferenceError /\
  (getJoinedTables (ResolvesTo true) None None (Some "B") two_joined).1 = Normal [] /\
  (getJoinedTables (ResolvesTo false) None None (Some "B") two_joined).1
    = Normal [mine; theirs].
Proof. vm_compute. done. Qed.

(** The run behind [two_joined], seen from outside: the request went to
    "B", the acceptance fulfilled the promise, cleared the timeout and left
    no request pending. *)
Example join_is_accepted :
  promises two_joined = [Fulfilled] /\
  _joinTableRequests two_joined = Some [] /\
  timers two_joined = [] /\
  snd <$> sends two_joined = [["B"]] /\
  ev_type <$> dispatched two_joined = ["jointable"].
Proof. vm_compute. done. Qed.

(** ** The beacon *)

Section Beacon.

Implicit Types (s : State) (h : list TableObject) (l : nat) (t : TableObject).






Lemma heap_emit e s : heap (emit e s) = heap s.
Proof. done. Qed.

Lemma heap_emit_all es s : heap (emit_all es s) = heap s.
Proof. revert s. induction es as [|e es IH]; intros s; [done|]. simpl. by rewrite IH. Qed.





(** *** Calls that leave the heap alone *)





Lemma heap_leaveJoinedTable tableObj s : heap (leaveJoinedTable tableObj s).2 = heap s.
Proof. unfold leaveJoinedTable. repeat case_match; done. Qed.




(** *** Calls that allocate or store *)









Lemma log_clearTimer id s : log (clearTimer id s) = log s.
Proof. by destruct id. Qed.


(** *** Where pending timers come from *)








Lemma timers_leaveJoinedTable tableObj s : timers (leaveJoinedTable tableObj s).2 = timers s.
Proof. unfold leaveJoinedTable. repeat case_match; done. Qed.











End Beacon.




(** The same run seen from outside: the table "mine" is broadcast once, by
    [createTable], before "R" joins; of the calls that follow, only the
    creation of the table "other" broadcasts. *)
Example beacon_of_full_table_is_silent :
  tableName <$> broadcasts owner_of_full_table = [Some "mine"] /\
  tableName <$> broadcasts (run aftermath owner_of_full_table) = [Some "mine"; Some "other"] /\
  timers (run aftermath owner_of_full_table) = [(1, BeaconTick 1)].
Proof. vm_compute. done. Qed.

(** ** Join fulfilment by the owner *)

(** The fuel handed to the slot loop is enough: once there are as many
    passes left as entries from [count2] on, and one more for the last test of
    the loop condition, more fuel changes nothing. *)
Lemma jointablerequest_slots_fuel (fuel extra count2 : nat) (self sender : string)
    (ownEvent : CPEvent) (t : TableObject) :
  length (default [] (requiredPID t)) <= count2 + fuel ->
  jointablerequest_slots (S fuel + extra) count2 self sender ownEvent t
    = jointablerequest_slots (S fuel) count2 self sender ownEvent t.
Proof.
  revert count2 t. induction fuel as [|fuel IH]; intros count2 t Hlen.
  - cbn [Nat.add jointablerequest_slots].
    destruct (requiredPID t) as [required|] eqn:Hr; [|done]. simpl in Hlen.
    rewrite lookup_ge_None_2 by lia. done.
  - change (S (S fuel) + extra) with (S (S fuel + extra)).
    remember (S fuel) as n eqn:Hn.
    cbn [jointablerequest_slots].
    destruct (requiredPID t) as [required|] eqn:Hr; [|done]. simpl in Hlen.
    destruct (required !! count2) as [slot|] eqn:Hs; [|done].
    destruct (_ || _).
    + cbn [joinedPID set_requiredPID].
      destruct (joinedPID t) as [joined|]; [|done].
      subst n. rewrite IH; [done|].
      cbn [requiredPID set_joinedPID set_requiredPID default].
      unfold id. rewrite length_delete by eauto. lia.
    + subst n. rewrite IH; [done|]. rewrite Hr. simpl. lia.
Qed.

(** *** The flag [openTables] after a join request *)

Section OpenTablesFlag.

Implicit Types (s : State) (l : nat) (t : TableObject).

Lemma jointablerequest_slots_ownerPID fuel count2 self sender ownEvent t :
  ownerPID (jointablerequest_slots fuel count2 self sender ownEvent t).1.2 = ownerPID t.
Proof.
  revert count2 t. induction fuel as [|fuel IH]; intros count2 t; [done|]. simpl.
  destruct (requiredPID t) as [required|]; [|done].
  destruct (required !! count2) as [slot|]; [|done].
  destruct (_ || _); [|apply IH].
  cbn [joinedPID set_requiredPID]. destruct (joinedPID t) as [joined|]; [|done].
  match goal with |- context [jointablerequest_slots fuel ?c self sender ownEvent ?u] =>
    specialize (IH c u); destruct (jointablerequest_slots fuel c self sender ownEvent u)
      as [[c' t'] rest] end.
  exact IH.
Qed.

Lemma privateID_emit_all es s : privateID (emit_all es s) = privateID s.
Proof. revert s. induction es as [|e es IH]; intros s; [done|]. simpl. by rewrite IH. Qed.

Lemma openTables_emit_all es s : _openTables (emit_all es s) = _openTables s.
Proof. revert s. induction es as [|e es IH]; intros s; [done|]. simpl. by rewrite IH. Qed.

Lemma privateID_jointablerequest_tables locs message_ sender ownEvent s :
  privateID (jointablerequest_tables locs message_ sender ownEvent s).2 = privateID s.
Proof.
  revert s. induction locs as [|l locs IH]; intros s; [done|].
  cbn [jointablerequest_tables].
  destruct (heap s !! l) as [currentTable|]; [|done].
  destruct (js_eq_str _ _); [|apply IH].
  match goal with |- context [if ?c then jointablerequest_slots ?f ?n ?a ?b ?e ?t else ?z] =>
    destruct (if c then jointablerequest_slots f n a b e t else z) as [[c' t'] effects] end.
  destruct c' as [u|e]; [|cbn [snd]; by rewrite privateID_emit_all].
  destruct (requiredPID t') as [required|]; [|cbn [snd]; by rewrite privateID_emit_all].
  rewrite IH. destruct (Nat.ltb _ _); cbn [privateID set_openTables];
    by rewrite privateID_emit_all.
Qed.

Lemma joinedTables_emit_all es s : _joinedTables (emit_all es s) = _joinedTables s.
Proof. revert s. induction es as [|e es IH]; intros s; [done|]. simpl. by rewrite IH. Qed.

Lemma joinedTables_jointablerequest_tables locs message_ sender ownEvent s :
  _joinedTables (jointablerequest_tables locs message_ sender ownEvent s).2 = _joinedTables s.
Proof.
  revert s. induction locs as [|l locs IH]; intros s; [done|].
  cbn [jointablerequest_tables].
  destruct (heap s !! l) as [currentTable|]; [|done].
  destruct (js_eq_str _ _); [|apply IH].
  match goal with |- context [if ?c then jointablerequest_slots ?f ?n ?a ?b ?e ?t else ?z] =>
    destruct (if c then jointablerequest_slots f n a b e t else z) as [[c' t'] effects] end.
  destruct c' as [u|e]; [|cbn [snd]; by rewrite joinedTables_emit_all].
  destruct (requiredPID t') as [required|]; [|cbn [snd]; by rewrite joinedTables_emit_all].
  rewrite IH. destruct (Nat.ltb _ _); cbn [_joinedTables set_openTables];
    by rewrite joinedTables_emit_all.
Qed.

(** The loop over the registry only writes to the objects it visits. *)
Lemma jointablerequest_tables_frame locs message_ sender ownEvent s l :
  l ∉ locs ->
  heap (jointablerequest_tables locs message_ sender ownEvent s).2 !! l = heap s !! l.
Proof.
  revert s. induction locs as [|l0 locs IH]; intros s Hl; [done|].
  apply not_elem_of_cons in Hl as [Hne Hl].
  cbn [jointablerequest_tables].
  destruct (heap s !! l0) as [currentTable|]; [|done].
  destruct (js_eq_str _ _); [|by apply IH].
  match goal with |- context [if ?c then jointablerequest_slots ?f ?n ?a ?b ?e ?t else ?z] =>
    destruct (if c then jointablerequest_slots f n a b e t else z) as [[c' t'] effects] end.
  assert (Hstore : heap (emit_all effects (set_heap (<[l0 := t']> (heap s)) s)) !! l
                   = heap s !! l).
  { rewrite heap_emit_all. cbn [heap set_heap]. by rewrite list_lookup_insert_ne. }
  destruct c' as [u|e]; [|done].
  destruct (requiredPID t') as [required|]; [|done].
  rewrite IH by done. by destruct (Nat.ltb _ _).
Qed.

(** After the loop has run to its end over a registry without repeated
    entries, the flag is what it was, or true because one of the visited
    tables is owned by the local peer and has a slot left. *)
Lemma jointablerequest_tables_flag locs message_ sender ownEvent s s' :
  NoDup locs ->
  jointablerequest_tables locs message_ sender ownEvent s = (Normal tt, s') ->
  _openTables s' = _openTables s || existsb (owned_and_open (privateID s) (heap s')) locs.
Proof.
  revert s. induction locs as [|l locs IH]; intros s Hnd Hrun.
  - cbn in Hrun. injection Hrun as <-. by rewrite orb_false_r.
  - apply NoDup_cons in Hnd as [Hl Hnd].
    pose proof (jointablerequest_tables_frame locs message_ sender ownEvent) as Hframe.
    cbn [jointablerequest_tables] in Hrun. cbn [existsb]. unfold owned_and_open at 1.
    destruct (heap s !! l) as [currentTable|] eqn:Hcur; [|done].
    destruct (js_eq_str (ownerPID currentTable) (privateID s)) eqn:Hown.
    + match type of Hrun with context [if ?c then ?a else ?b] =>
        assert (Hres : ownerPID (if c then a else b).1.2 = ownerPID currentTable)
          by (destruct c; [apply jointablerequest_slots_ownerPID | done]);
        destruct (if c then a else b) as [[c' t'] effects] end.
      cbn [fst snd] in Hres.
      destruct c' as [[]|e]; [|done].
      destruct (requiredPID t') as [required|] eqn:Hreq; [|done].
      match type of Hrun with jointablerequest_tables _ _ _ _ ?s1 = _ =>
        specialize (Hframe s1 l Hl); rewrite Hrun in Hframe; cbn [snd] in Hframe;
        pose proof (IH s1 Hnd Hrun) as Hflag;
        assert (Hl1 : heap s1 !! l = Some t');
        [|assert (Hp1 : privateID s1 = privateID s); [|assert (Hf1 :
            _openTables s1 = _openTables s || Nat.ltb 0 (length required))]] end.
      * destruct (Nat.ltb _ _); cbn [heap set_openTables]; rewrite heap_emit_all;
          cbn [heap set_heap]; apply list_lookup_insert_eq; by eapply lookup_lt_Some.
      * destruct (Nat.ltb _ _); cbn [privateID set_openTables]; by rewrite privateID_emit_all.
      * destruct (Nat.ltb _ _); cbn [_openTables set_openTables];
          rewrite ?openTables_emit_all; cbn [_openTables set_heap];
          by rewrite ?orb_true_r, ?orb_false_r.
      * rewrite Hflag, Hf1, Hp1, Hframe, Hl1, Hres, Hown, Hreq. cbn [default id andb].
        by rewrite orb_assoc.
    + specialize (Hframe s l Hl). rewrite Hrun in Hframe. cbn [snd] in Hframe.
      rewrite (IH s Hnd Hrun), Hframe, Hcur, Hown. done.
Qed.

(** The recomputed flag: when a [jointablerequest] is handled to its end by
    a peer whose flag was set, the flag afterwards is true exactly when a
    table of the registry is owned by the local peer and has a slot left. *)
Lemma openTables_after_jointablerequest (result : Result) (message_ : TableObject)
    (locs : list nat) s s' :
  data result = Some message_ -> cpMsg message_ = Some "jointablerequest" ->
  openTables s = true -> _joinedTables s = Some locs -> NoDup locs ->
  handleP2PMessage (Some result) s = (Normal tt, s') ->
  _joinedTables s' = Some locs /\
  openTables s' = existsb (owned_and_open (privateID s') (heap s')) locs.
Proof.
  intros Hd Hm Ho Hj Hnd Hrun.
  unfold handleP2PMessage, isCPMsgEvent, isCPMessage in Hrun.
  rewrite Hd in Hrun. cbn [default id] in Hrun. rewrite Hm in Hrun.
  cbn [js_truthy negb default id String.eqb Ascii.eqb Bool.eqb] in Hrun.
  rewrite Ho in Hrun. cbn [negb _joinedTables set_openTables] in Hrun. rewrite Hj in Hrun.
  pose proof (jointablerequest_tables_flag _ _ _ _ _ _ Hnd Hrun) as Hflag.
  pose proof (privateID_jointablerequest_tables locs message_ (from result)
                (mkEvent "jointablerequest" (EvResult result)) (set_openTables false s)) as Hp.
  pose proof (joinedTables_jointablerequest_tables locs message_ (from result)
                (mkEvent "jointablerequest" (EvResult result)) (set_openTables false s)) as Hjt.
  rewrite Hrun in Hp, Hjt. cbn [snd] in Hp, Hjt.
  split; [by rewrite Hjt|]. unfold openTables. by rewrite Hp.
Qed.

End OpenTablesFlag.

(** C6.  The owner's table has the two slots ["*"; "*"] when the request of
    "R" comes in.  The handler consumes the first wildcard and steps over the
    second, which the splice has moved under the index just used: one slot is
    left, "R" is in [joinedPID] once, one [jointable] update goes out to "R"
    and one event is dispatched.  The flag [openTables] is true, as the table
    still has a slot. *)
Theorem C6_adjacent_slot_skipped :
  let after := handleP2PMessage (Some request_from_R) owner_of_two_slots in
  requiredPID <$> heap owner_of_two_slots !! 0 = Some (Some ["*"; "*"]) /\
  after.1 = Normal tt /\
  requiredPID <$> heap after.2 !! 0 = Some (Some ["*"]) /\
  joinedPID <$> heap after.2 !! 0 = Some (Some ["me"; "R"]) /\
  snd <$> sends after.2 = [["R"]] /\
  ev_type <$> dispatched after.2 = ["jointablerequest"] /\
  openTables after.2 = true.
Proof. vm_compute. done. Qed.

(** * Further properties *)

(** ** The announcement cache, continued *)

Section CacheInvariants.

Implicit Types (s : State) (r : Result) (cache : list TableObject).

(** The scan lets through an announcer none of whose entries is cached. *)
Lemma captureTable_scan_no_entries cache r maxPerPeer n :
  entries_of (from r) cache = 0 -> captureTable_scan cache r maxPerPeer n = false.
Proof.
  revert n. induction cache as [|e cache IH]; intros n H0; [done|].
  rewrite entries_of_cons in H0. simpl.
  destruct (js_eq_str (ownerPID e) (from r)); [done | by apply IH].
Qed.

Lemma removelast_snoc_cases {A} (l : list A) :
  l = [] \/ exists l' a, l = l' ++ [a] /\ removelast l = l'.
Proof.
  destruct l as [|x l] using rev_ind; [by left|].
  right. exists l, x. by rewrite removelast_last.
Qed.

Lemma entries_of_removelast sender cache :
  entries_of sender (removelast cache) <= entries_of sender cache.
Proof.
  destruct (removelast_snoc_cases cache) as [->|(l & a & -> & ->)]; [done|].
  unfold entries_of. rewrite filter_app, length_app. lia.
Qed.

(** The answer of [captureTable] does not depend on anything but the cache
    and the quota. *)
Lemma captureTable_answer r s :
  (captureTable r s).1 =
  isValidTable (data r) &&
  negb (captureTable_scan (announcedTables s) r (maxCapturesPerPeer s) 0).
Proof.
  unfold captureTable, announcedTables.
  destruct (isValidTable (data r)); cbn [negb andb]; [|done].
  unfold maxCapturesPerPeer. cbn [_maxCapturesPerPeer set_announcedTables].
  by destruct (captureTable_scan _ _ _ _).
Qed.

(** When [captureTable] says yes. *)
Lemma captureTable_accepts_iff r s :
  (captureTable r s).1 = true <->
  isValidTable (data r) = true /\
  ~ duplicate_of r (announcedTables s) /\
  (entries_of (from r) (announcedTables s) = 0 \/
   (Z.of_nat (entries_of (from r) (announcedTables s)) <= maxCapturesPerPeer s)%Z).
Proof.
  rewrite captureTable_answer, andb_true_iff, negb_true_iff. split.
  - intros [Hv Hscan]. split; [done|]. split.
    + intros Hd. by rewrite captureTable_scan_duplicate in Hscan.
    + destruct (entries_of (from r) (announcedTables s)) as [|k] eqn:Hk; [by left|].
      right. destruct (Z.le_gt_cases (Z.of_nat (S k)) (maxCapturesPerPeer s)); [done|].
      rewrite captureTable_scan_over_quota in Hscan; [done | lia | rewrite Hk; lia].
  - intros (Hv & Hd & [H0|Hle]); (split; [done|]).
    + by apply captureTable_scan_no_entries.
    + by apply captureTable_scan_passes.
Qed.

End CacheInvariants.

(** X1.  [captureTable] accepts an announcement exactly when the announced
    table is valid, no cached entry whose [ownerPID] is the announcer has the
    announced [tableID], and the number of cached entries whose [ownerPID] is
    the announcer is zero or at most [maxCapturesPerPeer]. *)
Theorem X1_captureTable_accepts_iff (r : Result) (s : State) :
  (captureTable r s).1 = true <->
  isValidTable (data r) = true /\
  ~ duplicate_of r (announcedTables s) /\
  (entries_of (from r) (announcedTables s) = 0 \/
   (Z.of_nat (entries_of (from r) (announcedTables s)) <= maxCapturesPerPeer s)%Z).
Proof. apply captureTable_accepts_iff. Qed.

(** X2.  A cache that is within [maxCapturedTables] is still within it after
    [captureTable], whatever the answer. *)
Theorem X2_cache_stays_within_capacity (r : Result) (s : State) :
  (Z.of_nat (length (announcedTables s)) <= maxCapturedTables s)%Z ->
  (Z.of_nat (length (announcedTables (captureTable r s).2)) <= maxCapturedTables s)%Z.
Proof.
  intros Hle. destruct (captureTable r s).1 eqn:Hans.
  - destruct (captureTable_true r s Hans) as (newEntry & _ & ->).
    destruct (Z.gtb_spec (Z.of_nat (S (length (announcedTables s)))) (maxCapturedTables s)).
    + rewrite removelast_firstn_len, length_take. cbn [length]. lia.
    + cbn [length]. lia.
  - by rewrite (captureTable_false r s Hans).
Qed.

Lemma X2_cache_stays_within_capacity_witness :
  (Z.of_nat (length (announcedTables (captureTable (announcement "R" "R" "1") full_of_two).2))
   <= maxCapturedTables full_of_two)%Z.
Proof.
  apply (X2_cache_stays_within_capacity (announcement "R" "R" "1") full_of_two).
  vm_compute. discriminate.
Defined.

(** X3.  While the cache holds fewer than [maxCapturedTables] entries, an
    accepted announcement goes to index 0 and every earlier entry stays, one
    index further. *)
Theorem X3_capture_below_capacity_keeps_all (r : Result) (s : State) :
  (Z.of_nat (length (announcedTables s)) < maxCapturedTables s)%Z ->
  (captureTable r s).1 = true ->
  exists newEntry, data r = Some newEntry /\
    announcedTables (captureTable r s).2 = newEntry :: announcedTables s.
Proof.
  intros Hlt Hans. destruct (captureTable_true r s Hans) as (newEntry & Hd & ->).
  exists newEntry. split; [done|].
  destruct (Z.gtb_spec (Z.of_nat (S (length (announcedTables s)))) (maxCapturedTables s));
    [lia | done].
Qed.

Lemma X3_capture_below_capacity_keeps_all_witness :
  exists newEntry, data (announcement "Q" "Q" "1") = Some newEntry /\
    announcedTables (captureTable (announcement "Q" "Q" "1") one_captured).2
      = newEntry :: announcedTables one_captured.
Proof.
  apply (X3_capture_below_capacity_keeps_all (announcement "Q" "Q" "1") one_captured);
    reflexivity.
Defined.

(** X4.  If every cached entry passes [isValidTable], every cached entry
    passes it after [captureTable]: only a table that was checked is stored. *)
Theorem X4_cache_holds_valid_tables (r : Result) (s : State) :
  Forall (fun e => isValidTable (Some e) = true) (announcedTables s) ->
  Forall (fun e => isValidTable (Some e) = true) (announcedTables (captureTable r s).2).
Proof.
  intros Hall. destruct (captureTable r s).1 eqn:Hans.
  - destruct (captureTable_true r s Hans) as (newEntry & Hd & ->).
    assert (Hv : isValidTable (Some newEntry) = true).
    { apply captureTable_accepts_iff in Hans as [Hv _]. by rewrite Hd in Hv. }
    destruct (_ >? _)%Z; [|by constructor].
    rewrite removelast_firstn_len. apply Forall_take. by constructor.
  - by rewrite (captureTable_false r s Hans).
Qed.

Lemma X4_cache_holds_valid_tables_witness :
  Forall (fun e => isValidTable (Some e) = true)
    (announcedTables (captureTable (announcement "R" "R" "1") full_of_two).2).
Proof.
  apply (X4_cache_holds_valid_tables (announcement "R" "R" "1") full_of_two).
  repeat constructor.
Defined.

(** X5.  Take a quota that is not negative and a cache in which no peer has
    more than quota + 1 entries.  After [captureTable] of an announcement
    whose table names the announcer as its [ownerPID], still no peer has more
    than quota + 1 entries. *)
Theorem X5_honest_announcers_stay_within_quota_plus_one (r : Result) (t : TableObject) (s : State) :
  (0 <= maxCapturesPerPeer s)%Z ->
  data r = Some t -> ownerPID t = Some (from r) ->
  (forall peer, (Z.of_nat (entries_of peer (announcedTables s)) <= maxCapturesPerPeer s + 1)%Z) ->
  forall peer,
    (Z.of_nat (entries_of peer (announcedTables (captureTable r s).2))
     <= maxCapturesPerPeer s + 1)%Z.
Proof.
  intros Hq Hd Ho Hall peer. destruct (captureTable r s).1 eqn:Hans.
  - destruct (captureTable_true r s Hans) as (newEntry & Hd' & ->).
    assert (newEntry = t) as -> by congruence.
    assert (Hnew : (Z.of_nat (entries_of peer (t :: announcedTables s))
                    <= maxCapturesPerPeer s + 1)%Z).
    { rewrite entries_of_cons. unfold js_eq_str. rewrite Ho. cbn [js_eq].
      destruct (String.eqb_spec (from r) peer) as [<-|Hne]; [|apply Hall].
      apply captureTable_accepts_iff in Hans as (_ & _ & [H0|Hle]); lia. }
    destruct (_ >? _)%Z; [|done].
    pose proof (entries_of_removelast peer (t :: announcedTables s)). lia.
  - rewrite (captureTable_false r s Hans). apply Hall.
Qed.

Lemma X5_honest_announcers_stay_within_quota_plus_one_witness :
  entries_of "P" (announcedTables five_of_P) = 5 /\
  (captureTable (announcement "P" "P" "6") five_of_P).1 = true /\
  (Z.of_nat (entries_of "P"
     (announcedTables (captureTable (announcement "P" "P" "6") five_of_P).2))
   <= maxCapturesPerPeer five_of_P + 1)%Z.
Proof.
  split; [vm_compute; reflexivity|]. split; [vm_compute; reflexivity|].
  apply (X5_honest_announcers_stay_within_quota_plus_one
           (announcement "P" "P" "6") (sample_table "P" "6" "lobby" ["*"]) five_of_P);
    [vm_compute; discriminate | reflexivity | reflexivity |].
  intros peer. unfold entries_of.
  pose proof (length_filter (fun e => js_eq_str (ownerPID e) peer = true)
                (announcedTables five_of_P)) as Hle.
  assert (Hlen : length (announcedTables five_of_P) = 5) by (vm_compute; reflexivity).
  assert (Hq : maxCapturesPerPeer five_of_P = 5%Z) by (vm_compute; reflexivity).
  rewrite Hq. lia.
Defined.

(** ** Creating and announcing tables *)

Section CreateTable.

Implicit Types (s : State).

Variables (name : option string) (players : Players) (info : option Info)
          (id random : option string).

(** What [createTable] leaves behind on a connected instance. *)
Lemma createTable_connected (beacon : bool) s :
  connected s = true ->
  let l := length (heap s) in
  let t := created_table (privateID s) name players info id random in
  let t' := if beacon then set_beaconID (Some (next_timer s)) t else t in
  let s' := (createTable name players info id random beacon s).2 in
  (createTable name players info id random beacon s).1 = Normal l /\
  heap s' = heap s ++ [t'] /\
  _joinedTables s' = Some (default [] (_joinedTables s) ++ [l]) /\
  _openTables s' = true /\
  _joinTableRequests s' = _joinTableRequests s /\
  _announcedTables s' = _announcedTables s /\
  promises s' = promises s /\
  privateID s' = privateID s /\
  (beacon = false -> log s' = log s /\ timers s' = timers s) /\
  (beacon = true -> requiredPID t <> Some [] ->
     log s' = log s ++ [p2p_broadcast (copyTable t (buildCPMessage "newtable"))] /\
     timers s' = timers s ++ [(next_timer s, BeaconTick l)]) /\
  (beacon = true -> requiredPID t = Some [] ->
     log s' = log s /\
     timers s' = filter (fun x : nat * TimerTask => x.1 ≠ next_timer s) (timers s)).
Proof.
  intros Hc. unfold createTable, created_table, setTimer, announceTable. rewrite Hc.
  generalize (match players with
              | PlayerCount n => replicate (Z.to_nat n) "*"
              | PlayerList l => l
              end).
  intros required. destruct beacon; cbn -[filter].
  - rewrite insert_app_r_alt, Nat.sub_diag by lia. cbn [insert list_insert].
    destruct required as [|slot rest]; cbn -[filter].
    + repeat split; try done.
      rewrite filter_app, filter_cons, filter_nil. cbn [fst].
      case_decide; [done|]. by rewrite app_nil_r.
    + repeat split; done.
  - repeat split; done.
Qed.

End CreateTable.

(** X6.  On a connected instance [createTable(name, n)] returns a new table
    object whose [requiredPID] holds [n] wildcards (none when [n] is not
    positive), whose [joinedPID] is the local peer alone and whose [ownerPID]
    is the local peer.  The object is appended to the registry, [openTables]
    is set, and no other table object, pending request, cached announcement
    or promise changes. *)
Theorem X6_createTable_with_open_seats
    (name : option string) (n : Z) (info : option Info) (id random : option string)
    (beacon : bool) (s : State) :
  connected s = true ->
  let l := length (heap s) in
  let s' := (createTable name (PlayerCount n) info id random beacon s).2 in
  (createTable name (PlayerCount n) info id random beacon s).1 = Normal l /\
  (exists t, heap s' = heap s ++ [t] /\
     requiredPID t = Some (replicate (Z.to_nat n) "*") /\
     joinedPID t = Some [privateID s] /\
     ownerPID t = Some (privateID s) /\
     tableName t = name /\
     tableID t = match id with Some i => Some i | None => random end) /\
  _joinedTables s' = Some (default [] (_joinedTables s) ++ [l]) /\
  openTables s' = true /\
  _joinTableRequests s' = _joinTableRequests s /\
  _announcedTables s' = _announcedTables s /\
  promises s' = promises s.
Proof.
  intros Hc.
  destruct (createTable_connected name (PlayerCount n) info id random beacon s Hc)
    as (Hr & Hh & Hj & Ho & Hq & Ha & Hp & _).
  cbv zeta. split; [done|]. split; [|done].
  eexists. split; [exact Hh|]. by destruct beacon.
Qed.

Lemma X6_createTable_with_open_seats_witness :
  let s := me_connected in
  let s' := (createTable (Some "t1") (PlayerCount 3) None None (Some "0421") true s).2 in
  (createTable (Some "t1") (PlayerCount 3) None None (Some "0421") true s).1
    = Normal (length (heap s)) /\
  (exists t, heap s' = heap s ++ [t] /\
     requiredPID t = Some (replicate (Z.to_nat 3) "*") /\
     joinedPID t = Some [privateID s] /\
     ownerPID t = Some (privateID s) /\
     tableName t = Some "t1" /\
     tableID t = Some "0421") /\
  _joinedTables s' = Some (default [] (_joinedTables s) ++ [length (heap s)]) /\
  openTables s' = true /\
  _joinTableRequests s' = _joinTableRequests s /\
  _announcedTables s' = _announcedTables s /\
  promises s' = promises s.
Proof.
  apply (X6_createTable_with_open_seats (Some "t1") 3 None None (Some "0421") true me_connected).
  reflexivity.
Defined.

(** X7.  [createTable] with the beacon on and at least one seat to fill
    broadcasts the new table at once, as one [newtable] message carrying its
    six core properties, and leaves the beacon pending under the identifier
    stored in the table's [beaconID]. *)
Theorem X7_createTable_announces_at_once
    (name : option string) (players : Players) (info : option Info)
    (id random : option string) (s : State) :
  connected s = true ->
  players <> PlayerList [] ->
  (forall n, players = PlayerCount n -> (0 < n)%Z) ->
  let t := created_table (privateID s) name players info id random in
  let s' := (createTable name players info id random true s).2 in
  log s' = log s ++ [p2p_broadcast (copyTable t (buildCPMessage "newtable"))] /\
  timers s' = timers s ++ [(next_timer s, BeaconTick (length (heap s)))] /\
  heap s' !! length (heap s) = Some (set_beaconID (Some (next_timer s)) t).
Proof.
  intros Hc Hl Hn.
  destruct (createTable_connected name players info id random true s Hc)
    as (_ & Hh & _ & _ & _ & _ & _ & _ & _ & Hb & _).
  cbv zeta in *. destruct Hb as [Hlog Ht]; [done | |].
  - destruct players as [n|l]; cbn [created_table requiredPID].
    + specialize (Hn n eq_refl). destruct (Z.to_nat n) eqn:Hz; [lia | done].
    + destruct l; [done | done].
  - split; [done|]. split; [done|].
    rewrite Hh. by rewrite lookup_app_r, Nat.sub_diag by lia.
Qed.

Lemma X7_createTable_announces_at_once_witness :
  let t := created_table (privateID me_connected) (Some "t1") (PlayerList ["*"; "Q"]) None
             (Some "7") None in
  let s' := (createTable (Some "t1") (PlayerList ["*"; "Q"]) None (Some "7") None true
               me_connected).2 in
  log s' = log me_connected ++ [p2p_broadcast (copyTable t (buildCPMessage "newtable"))] /\
  timers s' = timers me_connected
              ++ [(next_timer me_connected, BeaconTick (length (heap me_connected)))] /\
  heap s' !! length (heap me_connected)
    = Some (set_beaconID (Some (next_timer me_connected)) t).
Proof.
  apply (X7_createTable_announces_at_once (Some "t1") (PlayerList ["*"; "Q"]) None
           (Some "7") None me_connected); [reflexivity | discriminate | discriminate].
Defined.

(** X8.  [createTable] with the beacon on and no seat to fill (a count that
    is not positive, or an empty list) broadcasts nothing: the first
    announcement finds the table full and clears the beacon it has just
    started, so no timer with that identifier is left pending. *)
Theorem X8_createTable_without_seats_stays_silent
    (name : option string) (players : Players) (info : option Info)
    (id random : option string) (s : State) :
  connected s = true ->
  (players = PlayerList [] \/ exists n, players = PlayerCount n /\ (n <= 0)%Z) ->
  let s' := (createTable name players info id random true s).2 in
  log s' = log s /\
  (forall task, (next_timer s, task) ∉ timers s') /\
  (forall x, x ∈ timers s' -> x ∈ timers s).
Proof.
  intros Hc Hp.
  destruct (createTable_connected name players info id random true s Hc)
    as (_ & _ & _ & _ & _ & _ & _ & _ & _ & _ & Hb).
  cbv zeta in *. destruct Hb as [Hlog Ht]; [done | |].
  - destruct Hp as [->|(n & -> & Hn)]; cbn [created_table requiredPID]; [done|].
    by replace (Z.to_nat n) with 0 by lia.
  - split; [done|]. rewrite Ht. split.
    + intros task [Hne _]%list_elem_of_filter. by apply Hne.
    + by intros x [_ ?]%list_elem_of_filter.
Qed.

Lemma X8_createTable_without_seats_stays_silent_witness :
  let s' := (createTable (Some "t1") (PlayerCount 0) None (Some "7") None true me_connected).2 in
  log s' = log me_connected /\
  (forall task, (next_timer me_connected, task) ∉ timers s') /\
  (forall x, x ∈ timers s' -> x ∈ timers me_connected).
Proof.
  apply (X8_createTable_without_seats_stays_silent (Some "t1") (PlayerCount 0) None
           (Some "7") None me_connected); [reflexivity|].
  right. exists 0%Z. split; [reflexivity | lia].
Defined.

(** ** The connectivity precondition *)

(** X9.  On an instance that is not connected, [createTable], [sendToTable]
    and [leaveJoinedTable] throw the connection error and leave the instance
    as it is.  [joinTable] does not throw: the error is raised inside the
    promise executor, so the call returns a promise rejected with that error
    and changes nothing else. *)
Theorem X9_not_connected
    (name : option string) (players : Players) (info : option Info)
    (id random : option string) (beacon : bool)
    (tableObj : option TableObject) (message_ : option string) (replyTimeout : Z)
    (s : State) :
  connected s = false ->
  createTable name players info id random beacon s = (Throw not_connected, s) /\
  sendToTable tableObj message_ s = (Throw not_connected, s) /\
  leaveJoinedTable tableObj s = (Throw not_connected, s) /\
  (joinTable tableObj replyTimeout s).2
    = set_promises (promises s ++ [Rejected (RThrown not_connected)]) s.
Proof.
  intros Hc. unfold createTable, sendToTable, leaveJoinedTable. rewrite Hc.
  repeat split; try done.
  unfold joinTable. destruct (new_Promise s) as [promise s'] eqn:Hp.
  assert (connected s' = false) as -> by (injection Hp as <- <-; exact Hc).
  cbn [negb snd].
  replace promise with (new_Promise s).1 by by rewrite Hp.
  replace s' with (new_Promise s).2 by by rewrite Hp.
  apply settle_new_Promise.
Qed.

Lemma X9_not_connected_witness :
  let s := new_CypherPoker "me" in
  let tableObj := Some (sample_table "A" "1" "ta" ["*"]) in
  createTable (Some "t1") (PlayerCount 2) None None (Some "7") true s = (Throw not_connected, s) /\
  sendToTable tableObj (Some "hello") s = (Throw not_connected, s) /\
  leaveJoinedTable tableObj s = (Throw not_connected, s) /\
  (joinTable tableObj 20000 s).2
    = set_promises (promises s ++ [Rejected (RThrown not_connected)]) s.
Proof.
  apply (X9_not_connected (Some "t1") (PlayerCount 2) None None (Some "7") true
           (Some (sample_table "A" "1" "ta" ["*"])) (Some "hello") 20000
           (new_CypherPoker "me")).
  reflexivity.
Defined.

(** ** Messages to a table *)

Lemma createTablePIDList_spec (self pid : string) (PIDList : list string) :
  pid ∈ createTablePIDList self PIDList <-> pid ∈ PIDList /\ pid <> self.
Proof. unfold createTablePIDList. rewrite list_elem_of_filter. tauto. Qed.

(** X10.  On a connected instance [sendToTable] either refuses, returning
    false and leaving the instance as it is (the table is not valid, or the
    message is absent), or returns true after handing the transport exactly
    one [tablemsg].  That message carries the text and the table's name and
    identifier, but not its owner or member lists, and it goes to the members
    in the [joinedPID] of the table given, in order, the local peer left out. *)
Theorem X10_sendToTable (tableObj : option TableObject) (message_ : option string) (s : State) :
  connected s = true ->
  ((sendToTable tableObj message_ s).1 = Normal false /\
   (sendToTable tableObj message_ s).2 = s /\
   (isValidTable tableObj = false \/ message_ = None)) \/
  (exists t joined text,
     tableObj = Some t /\ joinedPID t = Some joined /\ message_ = Some text /\
     isValidTable tableObj = true /\
     (sendToTable tableObj message_ s).1 = Normal true /\
     (sendToTable tableObj message_ s).2 =
       emit (p2p_send
               (mkTable (Some "tablemsg") (Some text) (tableName t) (tableID t)
                  None None None None None None None None)
               (createTablePIDList (privateID s) joined)) s /\
     privateID s ∉ createTablePIDList (privateID s) joined).
Proof.
  intros Hc. unfold sendToTable. rewrite Hc. cbn [negb].
  destruct (isValidTable tableObj) eqn:Hv; cbn [negb]; [|left; auto].
  destruct message_ as [text|]; [|left; auto].
  destruct tableObj as [t|]; [|done].
  assert (Hj : exists joined, joinedPID t = Some joined).
  { unfold isValidTable in Hv. destruct (ownerPID t), (tableID t), (tableName t),
      (requiredPID t), (joinedPID t); try done. eauto. }
  destruct Hj as [joined Hj].
  right. exists t, joined, text. cbn [default id]. rewrite Hj. cbn [default id fst snd].
  repeat split; try done.
  rewrite createTablePIDList_spec. tauto.
Qed.

Lemma X10_sendToTable_witness :
  let tableObj := Some (sample_table "A" "1" "ta" []) in
  let s := me_connected in
  ((sendToTable tableObj (Some "hello") s).1 = Normal false /\
   (sendToTable tableObj (Some "hello") s).2 = s /\
   (isValidTable tableObj = false \/ Some "hello" = None)) \/
  (exists t joined text,
     tableObj = Some t /\ joinedPID t = Some joined /\ Some "hello" = Some text /\
     isValidTable tableObj = true /\
     (sendToTable tableObj (Some "hello") s).1 = Normal true /\
     (sendToTable tableObj (Some "hello") s).2 =
       emit (p2p_send
               (mkTable (Some "tablemsg") (Some text) (tableName t) (tableID t)
                  None None None None None None None None)
               (createTablePIDList (privateID s) joined)) s /\
     privateID s ∉ createTablePIDList (privateID s) joined).
Proof.
  apply (X10_sendToTable (Some (sample_table "A" "1" "ta" [])) (Some "hello") me_connected).
  reflexivity.
Defined.

(** ** Leaving a table *)

Section Leaving.

Implicit Types (s : State) (h : list TableObject) (locs : list nat) (t : TableObject).

(** What the registry scan of [leaveJoinedTable] finds: the first position
    whose table has the identity asked for. *)
Lemma find_joined_Some locs h tableObj start count :
  find_joined locs h tableObj start = Normal (Some count) ->
  exists i l t, count = start + i /\ locs !! i = Some l /\ h !! l = Some t /\
    same_table t tableObj = true /\
    forall j l' t', j < i -> locs !! j = Some l' -> h !! l' = Some t' ->
      same_table t' tableObj = false.
Proof.
  revert start. induction locs as [|l locs IH]; intros start Hf; [done|].
  cbn [find_joined] in Hf. destruct (h !! l) as [t|] eqn:Hl; [|done].
  destruct (same_table t tableObj) eqn:Hs.
  - injection Hf as <-. exists 0, l, t. rewrite Nat.add_0_r. repeat split; try done. lia.
  - destruct (IH _ Hf) as (i & l0 & t0 & -> & Hi & Hl0 & Hs0 & Hbefore).
    exists (S i), l0, t0. split; [lia|]. repeat split; try done.
    intros [|j] l' t' Hj Hl' Ht'.
    + cbn in Hl'. injection Hl' as <-. congruence.
    + apply (Hbefore j l' t'); [lia | done | done].
Qed.

Lemma broadcasts_emit e s :
  broadcasts (emit e s) = broadcasts s ++ match e with p2p_broadcast m => [m] | _ => [] end.
Proof. unfold broadcasts, emit. simpl. rewrite omap_app. by destruct e. Qed.

End Leaving.

(** ** Scans of the registry *)

Section RegistryScans.

Implicit Types (s : State) (h : list TableObject) (locs : list nat) (t : TableObject).

(** In a registry whose entries all refer to a table object, every entry
    before the first that satisfies [P] refers to an object that does not. *)
Lemma first_registered_before P s count l t :
  registry_ok s -> first_registered P s count l t ->
  forall j l', j < count -> default [] (_joinedTables s) !! j = Some l' ->
    exists t', heap s !! l' = Some t' /\ P t' = false.
Proof.
  intros Hok (_ & _ & _ & Hbefore) j l' Hj Hl'.
  pose proof (proj1 (Forall_lookup _ _) Hok j l' Hl') as Hlt.
  apply lookup_lt_is_Some_2 in Hlt as [t' Ht']. exists t'. split; [done|]. eauto.
Qed.

Lemma none_registered_all P s :
  registry_ok s -> none_registered P s ->
  forall l, l ∈ default [] (_joinedTables s) -> exists t, heap s !! l = Some t /\ P t = false.
Proof.
  intros Hok Hnone l Hin.
  pose proof (proj1 (Forall_forall _ _) Hok l Hin) as Hlt.
  apply lookup_lt_is_Some_2 in Hlt as [t Ht]. exists t. split; [done|]. eauto.
Qed.

(** The scan of [leaveJoinedTable] stops at the first entry with the identity
    asked for, and comes back empty-handed when there is none. *)
Lemma find_joined_first locs h tableObj start count l t :
  locs !! count = Some l -> h !! l = Some t -> same_table t tableObj = true ->
  (forall j l', j < count -> locs !! j = Some l' ->
     exists t', h !! l' = Some t' /\ same_table t' tableObj = false) ->
  find_joined locs h tableObj start = Normal (Some (start + count)).
Proof.
  revert start count. induction locs as [|l0 locs IH]; intros start count Hc Hl Hs Hbefore; [done|].
  cbn [find_joined]. destruct count as [|count].
  - cbn in Hc. injection Hc as ->. by rewrite Hl, Hs, Nat.add_0_r.
  - destruct (Hbefore 0 l0) as (t' & -> & ->); [lia | done |].
    rewrite (IH (S start) count); [f_equal; f_equal; lia | done | done | done |].
    intros j l' Hj Hl'. apply (Hbefore (S j) l'); [lia | done].
Qed.

Lemma find_joined_none locs h tableObj start :
  (forall l, l ∈ locs -> exists t, h !! l = Some t /\ same_table t tableObj = false) ->
  find_joined locs h tableObj start = Normal None.
Proof.
  revert start. induction locs as [|l0 locs IH]; intros start Hall; [done|].
  cbn [find_joined]. destruct (Hall l0) as (t & -> & ->); [by left|].
  apply IH. intros l Hin. apply Hall. by right.
Qed.

End RegistryScans.

(** X11.  On a connected instance [leaveJoinedTable] answers false and
    changes nothing when the table is not valid.  For a valid table and a
    registry whose entries all refer to a table object, it answers false,
    without sending anything and without touching the registry, when no
    registered table has the identifier, name and owner of the table given;
    and when some registered table has them it answers true, removes from the
    registry the first such entry and no other, and sends one [leavetable]
    message to the members listed in the table given, the local peer left
    out.  Whatever the registry: an answer of false leaves the instance as it
    was, and an answer of true comes with that removal and that message. *)
Theorem X11_leaveJoinedTable (tableObj : option TableObject) (s : State) :
  connected s = true ->
  let locs := default [] (_joinedTables s) in
  let after := leaveJoinedTable tableObj s in
  (isValidTable tableObj = false -> after = (Normal false, s)) /\
  (registry_ok s ->
   forall t, tableObj = Some t -> isValidTable tableObj = true ->
     (none_registered (fun t0 => same_table t0 t) s ->
        after = (Normal false, set_joinedTables (Some locs) s)) /\
     (forall count l t0,
        first_registered (fun t0 => same_table t0 t) s count l t0 ->
        after =
          (Normal true,
           emit (p2p_send (copyTable t (buildCPMessage "leavetable"))
                   (createTablePIDList (privateID s) (default [] (joinedPID t))))
             (set_joinedTables (Some (delete count locs)) s)))) /\
  (after.1 = Normal false ->
     after.2 = set_joinedTables (Some locs) s \/ after.2 = s) /\
  (after.1 = Normal true ->
     exists t count l t0,
       tableObj = Some t /\ isValidTable tableObj = true /\
       locs !! count = Some l /\ heap s !! l = Some t0 /\ same_table t0 t = true /\
       (forall j l' t', j < count -> locs !! j = Some l' -> heap s !! l' = Some t' ->
          same_table t' t = false) /\
       after.2 =
         emit (p2p_send (copyTable t (buildCPMessage "leavetable"))
                 (createTablePIDList (privateID s) (default [] (joinedPID t))))
           (set_joinedTables (Some (delete count locs)) s)).
Proof.
  intros Hc. cbv zeta. unfold leaveJoinedTable. rewrite Hc. cbn [negb].
  split; [by intros ->|].
  split.
  { intros Hok t -> Hv. rewrite Hv. cbn [negb default id heap set_joinedTables]. split.
    - intros Hnone.
      by rewrite (find_joined_none _ _ t 0 (none_registered_all _ s Hok Hnone)).
    - intros count l t0 Hfirst.
      pose proof (first_registered_before _ s count l t0 Hok Hfirst) as Hbefore.
      destruct Hfirst as (Hcount & Hl & Hs & _).
      by rewrite (find_joined_first _ _ t 0 count l t0 Hcount Hl Hs Hbefore). }
  destruct (isValidTable tableObj) eqn:Hv; cbn [negb]; [|by split; [right|]].
  destruct tableObj as [t|]; [|done]. cbn [default id heap set_joinedTables].
  destruct (find_joined (default [] (_joinedTables s)) (heap s) t 0) as [[count|]|e] eqn:Hf;
    cbn [fst snd]; (split; [try done; by left|]); try done.
  intros _. destruct (find_joined_Some _ _ _ _ _ Hf) as (i & l & t0 & -> & Hi & Hl & Hs & Hb).
  exists t, i, l, t0. repeat split; try done.
Qed.

Lemma X11_leaveJoinedTable_witness :
  let t := created_table "me" (Some "mine") (PlayerCount 1) None (Some "7") None in
  let s := run [Start true; CreateTable (Some "mine") (PlayerCount 1) None (Some "7") None true]
             (new_CypherPoker "me") in
  leaveJoinedTable (Some t) s =
    (Normal true,
     emit (p2p_send (copyTable t (buildCPMessage "leavetable"))
             (createTablePIDList (privateID s) (default [] (joinedPID t))))
       (set_joinedTables (Some (delete 0 (default [] (_joinedTables s)))) s)).
Proof.
  intros t s.
  destruct (X11_leaveJoinedTable (Some t) s eq_refl) as (_ & Hregistry & _).
  assert (Hok : registry_ok s) by (vm_compute; repeat constructor).
  destruct (Hregistry Hok t eq_refl eq_refl) as [_ Hfirst].
  apply (Hfirst 0 0 (set_beaconID (Some 0) t)).
  split; [reflexivity|]. split; [reflexivity|]. split; [reflexivity|].
  intros j l' t' Hj. lia.
Defined.

(** X12.  [leaveJoinedTable] never stops a beacon.  If the beacon of a table
    object with a seat to fill is pending, it is still pending after the call,
    whatever its answer, and its next tick broadcasts that table, also when
    the table has just been taken out of the registry. *)
Theorem X12_leaving_does_not_stop_the_beacon
    (tableObj : option TableObject) (s : State) (l id i : nat) (t : TableObject)
    (slot : string) (rest : list string) (host : Receiver) :
  heap s !! l = Some t ->
  requiredPID t = Some (slot :: rest) ->
  list_find (fun x : nat * TimerTask => x.1 = id) (timers s) = Some (i, (id, BeaconTick l)) ->
  let s' := (leaveJoinedTable tableObj s).2 in
  timers s' = timers s /\
  broadcasts (exec (TimerFires id host) s')
    = broadcasts s' ++ [copyTable t (buildCPMessage "newtable")].
Proof.
  intros Hl Hr Hf. cbv zeta.
  pose proof (timers_leaveJoinedTable tableObj s) as Ht.
  pose proof (heap_leaveJoinedTable tableObj s) as Hh.
  split; [done|].
  cbn [exec]. unfold timer_fires. rewrite Ht, Hf, Hh, Hl.
  unfold announceTable. rewrite Hr. cbn [length Nat.eqb snd].
  by rewrite broadcasts_emit.
Qed.

Lemma X12_leaving_does_not_stop_the_beacon_witness :
  let tableObj := Some (created_table "me" (Some "mine") (PlayerCount 1) None (Some "7") None) in
  let s := run [Start true; CreateTable (Some "mine") (PlayerCount 1) None (Some "7") None true]
             (new_CypherPoker "me") in
  let t := set_beaconID (Some 0)
             (created_table "me" (Some "mine") (PlayerCount 1) None (Some "7") None) in
  let s' := (leaveJoinedTable tableObj s).2 in
  timers s' = timers s /\
  broadcasts (exec (TimerFires 0 browser_window) s')
    = broadcasts s' ++ [copyTable t (buildCPMessage "newtable")].
Proof.
  apply (X12_leaving_does_not_stop_the_beacon
           (Some (created_table "me" (Some "mine") (PlayerCount 1) None (Some "7") None))
           (run [Start true; CreateTable (Some "mine") (PlayerCount 1) None (Some "7") None true]
              (new_CypherPoker "me"))
           0 0 0 _ "*" [] browser_window); reflexivity.
Defined.

(** ** Join negotiation, continued *)

Section JoinRequests.

Implicit Types (s : State) (locs : list nat) (requests : list TableObject).

Lemma same_but_tables_refl s : same_but_tables s s.
Proof. by repeat split. Qed.

Lemma same_but_tables_trans s1 s2 s3 :
  same_but_tables s1 s2 -> same_but_tables s2 s3 -> same_but_tables s1 s3.
Proof. unfold same_but_tables. intuition congruence. Qed.

Lemma same_but_tables_emit_all es s : same_but_tables s (emit_all es s).
Proof.
  revert s. induction es as [|e es IH]; intros s; [apply same_but_tables_refl|].
  eapply same_but_tables_trans; [|apply IH]. by repeat split.
Qed.

Lemma same_but_tables_jointablerequest_tables locs message_ sender ownEvent s :
  same_but_tables s (jointablerequest_tables locs message_ sender ownEvent s).2.
Proof.
  revert s. induction locs as [|l locs IH]; intros s; [apply same_but_tables_refl|].
  cbn [jointablerequest_tables].
  destruct (heap s !! l) as [currentTable|]; [|apply same_but_tables_refl].
  destruct (js_eq_str _ _); [|apply IH].
  match goal with |- context [if ?c then jointablerequest_slots ?f ?n ?a ?b ?e ?t else ?z] =>
    destruct (if c then jointablerequest_slots f n a b e t else z) as [[c' t'] effects] end.
  assert (Hstep : same_but_tables s (emit_all effects (set_heap (<[l := t']> (heap s)) s))).
  { eapply same_but_tables_trans; [|apply same_but_tables_emit_all]. by repeat split. }
  destruct c' as [u|e]; [|done].
  destruct (requiredPID t') as [required|]; [|done].
  eapply same_but_tables_trans; [|apply IH].
  destruct (Nat.ltb _ _); [|done].
  eapply same_but_tables_trans; [exact Hstep|]. by repeat split.
Qed.

Lemma same_but_tables_leavetable_tables locs message_ sender ownEvent s :
  same_but_tables s (leavetable_tables locs message_ sender ownEvent s).2.
Proof.
  revert s. induction locs as [|l locs IH]; intros s; [apply same_but_tables_refl|].
  cbn [leavetable_tables].
  destruct (heap s !! l) as [currentTable|]; [|apply same_but_tables_refl].
  destruct (_ && _); [|apply IH].
  destruct (joinedPID currentTable) as [joined|]; [|apply same_but_tables_refl].
  destruct (index_of sender joined 0) as [count2|]; [by repeat split | apply IH].
Qed.

(** The duplicate check comes back only when nothing is pending. *)
Lemma joinTable_scan_Normal requests count tableObj b :
  joinTable_scan requests count tableObj = Normal b -> requests = [] /\ b = false.
Proof. destruct requests; [by intros [= <-] | done]. Qed.

(** However it ends, [joinTable] leaves the pending list as it was or, when
    the list was empty, with the one new request. *)
Lemma pending_joinTable tableObj replyTimeout s :
  pending (joinTable tableObj replyTimeout s).2 = pending s \/
  pending s = [] /\ exists request, pending (joinTable tableObj replyTimeout s).2 = [request].
Proof.
  unfold joinTable, pending. destruct (new_Promise s) as [promise s'] eqn:Hp.
  assert (Hr : _joinTableRequests s' = _joinTableRequests s) by by injection Hp as <- <-.
  assert (Hsettle : forall v u, _joinTableRequests (settle promise v u) = _joinTableRequests u).
  { intros v u. unfold settle. by destruct (promises u !! promise) as [[]|]. }
  destruct (negb (connected s')); [left; cbn [snd]; by rewrite Hsettle, Hr|].
  destruct (negb (isValidTable tableObj)); [left; cbn [snd]; by rewrite Hsettle, Hr|].
  destruct (negb _); [left; cbn [snd]; by rewrite Hsettle, Hr|].
  destruct (joinTable_scan _ _ _) as [[]|e] eqn:Hscan;
    try (left; cbn [snd]; rewrite Hsettle; cbn [_joinTableRequests set_joinTableRequests];
         by rewrite Hr).
  apply joinTable_scan_Normal in Hscan as [Hnil _]. rewrite Hr in Hnil.
  right. split; [done|]. rewrite Hr, Hnil. cbn. eauto.
Qed.

End JoinRequests.

Section PendingRequests.

Implicit Types (s : State).

Lemma pending_settle p v s : pending (settle p v s) = pending s.
Proof. unfold settle, pending. by destruct (promises s !! p) as [[]|]. Qed.

Lemma pending_clearTimer id s : pending (clearTimer id s) = pending s.
Proof. by destruct id. Qed.

Lemma pending_same_but_tables s s' : same_but_tables s s' -> pending s' = pending s.
Proof. unfold same_but_tables, pending. intros H. by destruct H as (_&_&_&_&_&_&_&->&_). Qed.

Lemma pending_announceTable t s : pending (announceTable t s).2 = pending s.
Proof.
  unfold announceTable. destruct (requiredPID t) as [required|]; [|done].
  destruct (Nat.eqb _ _); [apply pending_clearTimer | done].
Qed.

Lemma pending_createTable name players info id random beacon s :
  pending (createTable name players info id random beacon s).2 = pending s.
Proof.
  destruct (connected s) eqn:Hc.
  - destruct (createTable_connected name players info id random beacon s Hc)
      as (_ & _ & _ & _ & Hq & _). unfold pending. cbv zeta in Hq. by rewrite Hq.
  - unfold createTable. by rewrite Hc.
Qed.

Lemma pending_step_onJoinTableRequestTimeout this tableObj s :
  pending_step s (onJoinTableRequestTimeout this tableObj s).2.
Proof.
  unfold pending_step, onJoinTableRequestTimeout.
  destruct this as [|[] []]; try (by left).
  all: destruct (_joinTableRequests s) as [requests|] eqn:Hr; [|by left].
  all: destruct (find_request requests tableObj 0) as [[count requestObj]|]; [|by left].
  all: right; left; exists count; unfold pending at 2; rewrite Hr; cbn [default id].
  all: try destruct (_reject requestObj); cbn [snd]; rewrite ?pending_settle; done.
Qed.

Lemma pending_step_handle_jointable result message_ ownEvent s :
  pending_step s (handle_jointable result message_ ownEvent s).2.
Proof.
  unfold pending_step, handle_jointable.
  cbn [heap _joinTableRequests set_joinedTables].
  destruct (find_by_id_name _ _ _ _) as [[count|]|e]; try (by left).
  destruct (_joinTableRequests s) as [requests|] eqn:Hr; [|by left].
  destruct (find_accepted requests (from result) message_ 0) as [[count requestObj]|];
    [|by left].
  right; left. exists count. unfold pending at 2. rewrite Hr. cbn [default id].
  destruct (_resolve requestObj); cbn [snd]; rewrite ?pending_settle;
    unfold pending; cbn [_joinTableRequests emit set_joinedTables set_heap];
    by rewrite (pending_clearTimer (joinTimeoutID requestObj)
                  (set_joinTableRequests (Some (delete count requests))
                     (set_joinedTables (Some (default [] (_joinedTables s))) s))) ||
       (fold (pending (clearTimer (joinTimeoutID requestObj)
                  (set_joinTableRequests (Some (delete count requests))
                     (set_joinedTables (Some (default [] (_joinedTables s))) s))));
        by rewrite pending_clearTimer).
Qed.

Lemma pending_step_handleP2PMessage event s :
  pending_step s (handleP2PMessage event s).2.
Proof.
  unfold handleP2PMessage.
  destruct (negb (isCPMsgEvent event)); [by left|].
  destruct event as [result|]; [|by left].
  repeat case_match; subst; cbn [snd]; try (by left).
  - left. match goal with H : captureTable _ _ = _ |- _ =>
      apply (f_equal snd) in H; cbn [snd] in H; rewrite <- H end.
    unfold captureTable. by repeat case_match.
  - left. match goal with H : captureTable _ _ = _ |- _ =>
      apply (f_equal snd) in H; cbn [snd] in H; rewrite <- H end.
    unfold captureTable. by repeat case_match.
  - left. by rewrite (pending_same_but_tables _ _
            (same_but_tables_jointablerequest_tables _ _ _ _ (set_openTables false s))).
  - apply pending_step_handle_jointable.
  - left. by rewrite (pending_same_but_tables _ _
            (same_but_tables_leavetable_tables _ _ _ _ (set_joinedTables _ s))).
Qed.

Lemma pending_step_exec c s : pending_step s (exec c s).
Proof.
  destruct c; cbn [exec]; try (by left).
  - left. apply pending_createTable.
  - left. destruct (heap s !! l); [apply pending_announceTable | done].
  - destruct (pending_joinTable tableObj replyTimeout s) as [H|H]; [by left | by right; right].
  - left. unfold sendToTable. by repeat case_match.
  - left. unfold leaveJoinedTable. by repeat case_match.
  - left. unfold getJoinedTables. by repeat case_match.
  - apply pending_step_handleP2PMessage.
  - unfold timer_fires. repeat case_match; try (by left).
    + left. apply pending_announceTable.
    + destruct (pending_step_onJoinTableRequestTimeout host tableObj (clearTimer (Some id) s))
        as [Hs|[Hs|Hs]]; rewrite pending_clearTimer in Hs;
        [by left | by right; left | by right; right].
Qed.

End PendingRequests.

(** X13.  On a connected instance with no join request pending, [joinTable]
    on a valid table with a slot for the local peer (its identifier or a
    wildcard) sends one [jointablerequest] carrying the table's six core
    properties to the table's owner alone, starts the timeout, records the
    request with the promise and the timer attached, and returns a promise
    that is still pending. *)
Theorem X13_joinTable_first_request
    (tableObj : TableObject) (replyTimeout : Z) (s : State) :
  connected s = true ->
  isValidTable (Some tableObj) = true ->
  slotAvailable (privateID s) tableObj = true ->
  pending s = [] ->
  let request := set_request (length (promises s)) (next_timer s) tableObj in
  let s' := (joinTable (Some tableObj) replyTimeout s).2 in
  exists owner, ownerPID tableObj = Some owner /\
  (joinTable (Some tableObj) replyTimeout s).1 = length (promises s) /\
  pending s' = [request] /\
  log s' = log s ++ [p2p_send (copyTable tableObj (buildCPMessage "jointablerequest")) [owner]] /\
  timers s' = timers s ++ [(next_timer s, JoinTimeout request)] /\
  promises s' = promises s ++ [Pending].
Proof.
  intros Hc Hv Hs Hp.
  destruct (joinTable_first_request tableObj replyTimeout s Hc Hv Hs Hp)
    as (Hr & Hq & Hl & Ht & Hpr).
  assert (Ho : exists owner, ownerPID tableObj = Some owner).
  { unfold isValidTable in Hv. destruct (ownerPID tableObj); [eauto | done]. }
  destruct Ho as [owner Ho]. exists owner. cbv zeta in *.
  rewrite Ho in Hl. unfold pending. rewrite Hq. done.
Qed.

Lemma X13_joinTable_first_request_witness :
  let tableObj := sample_table "A" "1" "ta" ["B"; "me"] in
  let s := me_connected in
  let request := set_request (length (promises s)) (next_timer s) tableObj in
  let s' := (joinTable (Some tableObj) 20000 s).2 in
  exists owner, ownerPID tableObj = Some owner /\
  (joinTable (Some tableObj) 20000 s).1 = length (promises s) /\
  pending s' = [request] /\
  log s' = log s ++ [p2p_send (copyTable tableObj (buildCPMessage "jointablerequest")) [owner]] /\
  timers s' = timers s ++ [(next_timer s, JoinTimeout request)] /\
  promises s' = promises s ++ [Pending].
Proof.
  apply (X13_joinTable_first_request (sample_table "A" "1" "ta" ["B"; "me"]) 20000 me_connected);
    reflexivity.
Defined.

(** X14.  While any join request is pending, every call of [joinTable]
    returns a rejected promise and changes nothing else, whatever the table:
    nothing is sent, recorded or timed. *)
Theorem X14_joinTable_rejects_while_pending
    (tableObj : option TableObject) (replyTimeout : Z) (s : State) :
  pending s <> [] ->
  exists reason,
    (joinTable tableObj replyTimeout s).2 = set_promises (promises s ++ [Rejected reason]) s.
Proof.
  intros Hne.
  destruct (_joinTableRequests s) as [requests|] eqn:Hr; [|by unfold pending in Hne; rewrite Hr in Hne].
  unfold pending in Hne. rewrite Hr in Hne. cbn in Hne.
  unfold joinTable. destruct (new_Promise s) as [promise s'] eqn:Hp.
  assert (Hs' : s' = (new_Promise s).2) by by rewrite Hp.
  assert (Hp' : promise = (new_Promise s).1) by by rewrite Hp.
  destruct (negb (connected s')); [eexists; cbn [snd]; rewrite Hp', Hs'; apply settle_new_Promise|].
  destruct (negb (isValidTable tableObj)); [eexists; cbn [snd]; rewrite Hp', Hs'; apply settle_new_Promise|].
  destruct (negb _); [eexists; cbn [snd]; rewrite Hp', Hs'; apply settle_new_Promise|].
  assert (_joinTableRequests s' = Some requests) as -> by (subst s'; exact Hr).
  cbn [default id]. rewrite joinTable_scan_throws by done. cbn [snd].
  assert (set_joinTableRequests (Some requests) s' = s') as ->.
  { subst s'. unfold new_Promise, set_joinTableRequests, set_promises. simpl. by rewrite Hr. }
  eexists. rewrite Hp', Hs'. apply settle_new_Promise.
Qed.

Lemma X14_joinTable_rejects_while_pending_witness :
  exists reason,
    (joinTable (Some (sample_table "B" "2" "tb" ["*"])) 20000 one_pending).2
      = set_promises (promises one_pending ++ [Rejected reason]) one_pending.
Proof.
  apply (X14_joinTable_rejects_while_pending (Some (sample_table "B" "2" "tb" ["*"])) 20000
           one_pending).
  discriminate.
Defined.

(** X15.  An instance never has more than one join request pending: if at
    most one is pending, at most one is pending after any sequence of
    interface calls, inbound notifications and timers. *)
Theorem X15_at_most_one_request_pending (calls : list Call) (s : State) :
  length (pending s) <= 1 -> length (pending (run calls s)) <= 1.
Proof.
  revert s. induction calls as [|c calls IH]; intros s Hle; [done|].
  cbn [run foldl]. fold (run calls (exec c s)). apply IH.
  destruct (pending_step_exec c s) as [->|[[count ->]|[_ [request ->]]]]; [done | | done].
  rewrite delete_take_drop, length_app, length_take, length_drop. lia.
Qed.

Lemma X15_at_most_one_request_pending_witness :
  length (pending (run [JoinTable (Some (sample_table "B" "2" "tb" ["*"])) 20000;
                        TimerFires 0 browser_window;
                        JoinTable (Some (sample_table "C" "3" "tc" ["*"])) 20000]
                     one_pending)) <= 1.
Proof.
  apply (X15_at_most_one_request_pending
           [JoinTable (Some (sample_table "B" "2" "tb" ["*"])) 20000;
            TimerFires 0 browser_window;
            JoinTable (Some (sample_table "C" "3" "tc" ["*"])) 20000] one_pending).
  vm_compute. lia.
Defined.

(** ** Table updates from an owner *)

Section TableUpdates.

Implicit Types (s : State) (h : list TableObject) (locs : list nat).

Lemma find_by_id_name_Some locs h message_ start count :
  find_by_id_name locs h message_ start = Normal (Some count) ->
  exists i l t, count = start + i /\ locs !! i = Some l /\ h !! l = Some t /\
    js_eq (tableID t) (tableID message_) = true /\
    js_eq (tableName t) (tableName message_) = true.
Proof.
  revert start. induction locs as [|l locs IH]; intros start Hf; [done|].
  cbn [find_by_id_name] in Hf. destruct (h !! l) as [t|] eqn:Hl; [|done].
  destruct (js_eq (tableID t) _ && js_eq (tableName t) _) eqn:Hm.
  - injection Hf as <-. apply andb_true_iff in Hm as [? ?].
    exists 0, l, t. rewrite Nat.add_0_r. done.
  - destruct (IH _ Hf) as (i & l0 & t0 & -> & ? & ? & ? & ?).
    exists (S i), l0, t0. split; [lia | done].
Qed.

(** The scan of the [jointable] case stops at the first entry with the
    identifier and name of the message. *)
Lemma find_by_id_name_first locs h message_ start count :
  find_by_id_name locs h message_ start = Normal (Some count) ->
  exists i l t, count = start + i /\ locs !! i = Some l /\ h !! l = Some t /\
    js_eq (tableID t) (tableID message_) = true /\
    js_eq (tableName t) (tableName message_) = true /\
    forall j l' t', j < i -> locs !! j = Some l' -> h !! l' = Some t' ->
      js_eq (tableID t') (tableID message_) && js_eq (tableName t') (tableName message_) = false.
Proof.
  revert start. induction locs as [|l locs IH]; intros start Hf; [done|].
  cbn [find_by_id_name] in Hf. destruct (h !! l) as [t|] eqn:Hl; [|done].
  destruct (js_eq (tableID t) _ && js_eq (tableName t) _) eqn:Hm.
  - injection Hf as <-. apply andb_true_iff in Hm as [? ?].
    exists 0, l, t. rewrite Nat.add_0_r. repeat split; try done. lia.
  - destruct (IH _ Hf) as (i & l0 & t0 & -> & Hi & Hl0 & Hid & Hn & Hbefore).
    exists (S i), l0, t0. split; [lia|]. repeat split; try done.
    intros [|j] l' t' Hj Hl' Ht'.
    + cbn in Hl'. injection Hl' as <-. congruence.
    + apply (Hbefore j l' t'); [lia | done | done].
Qed.

Lemma find_by_id_name_None locs h message_ start :
  Forall (fun l => l < length h) locs ->
  ~ (exists l t, l ∈ locs /\ h !! l = Some t /\
       js_eq (tableID t) (tableID message_) = true /\
       js_eq (tableName t) (tableName message_) = true) ->
  find_by_id_name locs h message_ start = Normal None.
Proof.
  revert start. induction locs as [|l locs IH]; intros start Hok Hno; [done|].
  apply Forall_cons in Hok as [Hl Hok]. cbn [find_by_id_name].
  apply lookup_lt_is_Some_2 in Hl as [t Ht]. rewrite Ht.
  destruct (js_eq (tableID t) _ && js_eq (tableName t) _) eqn:Hm.
  - exfalso. apply Hno. apply andb_true_iff in Hm as [? ?].
    exists l, t. split; [by left | done].
  - apply IH; [done|]. intros (l0 & t0 & Hin & H0). apply Hno.
    exists l0, t0. split; [by right | done].
Qed.

Lemma find_by_id_name_known locs h message_ start :
  Forall (fun l => l < length h) locs ->
  (exists l t, l ∈ locs /\ h !! l = Some t /\
     js_eq (tableID t) (tableID message_) = true /\
     js_eq (tableName t) (tableName message_) = true) ->
  exists count, find_by_id_name locs h message_ start = Normal (Some count).
Proof.
  revert start. induction locs as [|l locs IH]; intros start Hok (l0 & t0 & Hin & Ht0 & Hi & Hn).
  - by apply elem_of_nil in Hin.
  - apply Forall_cons in Hok as [Hl Hok]. cbn [find_by_id_name].
    apply lookup_lt_is_Some_2 in Hl as [t Ht]. rewrite Ht.
    destruct (js_eq (tableID t) _ && js_eq (tableName t) _) eqn:Hm; [eauto|].
    apply IH; [done|]. apply elem_of_cons in Hin as [->|Hin].
    + rewrite Ht in Ht0. injection Ht0 as ->. by rewrite Hi, Hn in Hm.
    + eauto 10.
Qed.

(** A [jointable] notification goes to the [jointable] case. *)
Lemma handleP2PMessage_jointable result message_ s :
  data result = Some message_ -> cpMsg message_ = Some "jointable" ->
  handleP2PMessage (Some result) s
    = handle_jointable result message_ (mkEvent "jointable" (EvResult result)) s.
Proof.
  intros Hd Hm. unfold handleP2PMessage, isCPMsgEvent, isCPMessage.
  rewrite Hd. cbn [default id]. rewrite Hm. reflexivity.
Qed.

Lemma log_settle p v s : log (settle p v s) = log s.
Proof. unfold settle. by destruct (promises s !! p) as [[]|]. Qed.



Lemma joinedTables_clearTimer id s : _joinedTables (clearTimer id s) = _joinedTables s.
Proof. by destruct id. Qed.

End TableUpdates.



(** X17.  A [jointable] notification whose [tableID] and [tableName] are
    those of a registered table replaces the first such table in the registry
    (no entry before it has that identifier and name) by a fresh copy of the
    six core properties of the notification, whoever sent it and whoever owns
    the table, and dispatches the event.  The old object stays as it was, and
    nothing else changes: no pending join request is resolved by it, even one
    it matches. *)
Theorem X17_table_update_replaces_registered_table
    (result : Result) (message_ : TableObject) (s : State) :
  data result = Some message_ -> cpMsg message_ = Some "jointable" ->
  registry_ok s -> knows_table message_ s ->
  let locs := default [] (_joinedTables s) in
  let s' := (handleP2PMessage (Some result) s).2 in
  (handleP2PMessage (Some result) s).1 = Normal tt /\
  (exists count l t,
     locs !! count = Some l /\ heap s !! l = Some t /\
     js_eq (tableID t) (tableID message_) = true /\
     js_eq (tableName t) (tableName message_) = true /\
     (forall j l' t', j < count -> locs !! j = Some l' -> heap s !! l' = Some t' ->
        js_eq (tableID t') (tableID message_) &&
        js_eq (tableName t') (tableName message_) = false) /\
     _joinedTables s' = Some (<[count := length (heap s)]> locs)) /\
  heap s' = heap s ++ [copyTable message_ new_Object] /\
  log s' = log s ++ [dispatchEvent (mkEvent "jointable" (EvResult result))] /\
  pending s' = pending s /\ promises s' = promises s /\ timers s' = timers s.
Proof.
  intros Hd Hm Hok Hknown. cbv zeta.
  rewrite (handleP2PMessage_jointable result message_ s Hd Hm).
  unfold handle_jointable. cbn [heap set_joinedTables].
  destruct (find_by_id_name_known _ _ message_ 0 Hok Hknown) as [count Hf].
  rewrite Hf. cbn [fst snd].
  destruct (find_by_id_name_first _ _ _ _ _ Hf) as (i & l & t & -> & Hi & Hl & Hid & Hn & Hb).
  repeat split; try done. exists i, l, t. done.
Qed.

Lemma X17_table_update_replaces_registered_table_witness :
  let message_ := default new_Object (data update_from_C) in
  let s := in_table_of_B in
  let locs := default [] (_joinedTables s) in
  let s' := (handleP2PMessage (Some update_from_C) s).2 in
  (handleP2PMessage (Some update_from_C) s).1 = Normal tt /\
  (exists count l t,
     locs !! count = Some l /\ heap s !! l = Some t /\
     js_eq (tableID t) (tableID message_) = true /\
     js_eq (tableName t) (tableName message_) = true /\
     (forall j l' t', j < count -> locs !! j = Some l' -> heap s !! l' = Some t' ->
        js_eq (tableID t') (tableID message_) &&
        js_eq (tableName t') (tableName message_) = false) /\
     _joinedTables s' = Some (<[count := length (heap s)]> locs)) /\
  heap s' = heap s ++ [copyTable message_ new_Object] /\
  log s' = log s ++ [dispatchEvent (mkEvent "jointable" (EvResult update_from_C))] /\
  pending s' = pending s /\ promises s' = promises s /\ timers s' = timers s.
Proof.
  apply (X17_table_update_replaces_registered_table update_from_C
           (default new_Object (data update_from_C)) in_table_of_B);
    try reflexivity.
  - vm_compute. repeat constructor.
  - exists 0, (copyTable joined_table_of_B new_Object).
    split; [vm_compute; by left | vm_compute; done].
Defined.

(** X18.  On an instance that has never called [joinTable], a [jointable]
    notification for a table that is not in the registry makes
    [handleP2PMessage] throw a [TypeError]: the loop over the pending requests
    reads the length of an array that does not exist yet.  Nothing is
    dispatched. *)
Theorem X18_unsolicited_table_update_throws
    (result : Result) (message_ : TableObject) (s : State) :
  data result = Some message_ -> cpMsg message_ = Some "jointable" ->
  registry_ok s -> ~ knows_table message_ s ->
  _joinTableRequests s = None ->
  handleP2PMessage (Some result) s
    = (Throw TypeError, set_joinedTables (Some (default [] (_joinedTables s))) s).
Proof.
  intros Hd Hm Hok Hno Hr.
  rewrite (handleP2PMessage_jointable result message_ s Hd Hm).
  unfold handle_jointable. cbn [heap _joinTableRequests set_joinedTables].
  by rewrite (find_by_id_name_None _ _ _ 0 Hok Hno), Hr.
Qed.

Lemma X18_unsolicited_table_update_throws_witness :
  handleP2PMessage (Some (mkResult "B" (Some joined_table_of_B))) me_connected
    = (Throw TypeError,
       set_joinedTables (Some (default [] (_joinedTables me_connected))) me_connected).
Proof.
  apply (X18_unsolicited_table_update_throws (mkResult "B" (Some joined_table_of_B))
           joined_table_of_B me_connected); try reflexivity.
  - constructor.
  - intros (l & t & Hin & _). vm_compute in Hin. by apply elem_of_nil in Hin.
Defined.

(** ** Join fulfilment by the owner, continued *)

Section SlotLoop.

Variables (self sender : string) (ownEvent : CPEvent).

Implicit Types (t : TableObject) (required joined : list string).

Lemma slots_for_others_delete required count2 slot :
  required !! count2 = Some slot -> slot_matches sender slot = true ->
  slots_for_others sender (delete count2 required) = slots_for_others sender required.
Proof.
  intros Hl Hm. unfold slots_for_others.
  rewrite <- (take_drop_middle required count2 slot Hl) at 2.
  rewrite delete_take_drop, !List.filter_app. cbn [List.filter]. by rewrite Hm.
Qed.

(** What the slot loop does to a table whose two arrays exist: it returns
    normally; the requester is appended to [joinedPID] once for every slot
    taken out of [requiredPID]; every slot taken out was one the requester
    may take; and two effects, an update and an event, go out per slot. *)
Lemma jointablerequest_slots_spec fuel count2 t required joined :
  requiredPID t = Some required -> joinedPID t = Some joined ->
  exists k required' effects t',
    jointablerequest_slots fuel count2 self sender ownEvent t = (Normal tt, t', effects) /\
    requiredPID t' = Some required' /\
    joinedPID t' = Some (joined ++ replicate k sender) /\
    ownerPID t' = ownerPID t /\ tableID t' = tableID t /\ tableName t' = tableName t /\
    length required' + k = length required /\
    length effects = 2 * k /\
    slots_for_others sender required' = slots_for_others sender required.
Proof.
  revert count2 t required joined.
  induction fuel as [|fuel IH]; intros count2 t required joined Hr Hj.
  - exists 0, required, [], t. rewrite app_nil_r. repeat split; try done; lia.
  - cbn [jointablerequest_slots]. rewrite Hr.
    destruct (required !! count2) as [slot|] eqn:Hs.
    + fold (slot_matches sender slot). destruct (slot_matches sender slot) eqn:Hm.
      * cbn [joinedPID set_requiredPID]. rewrite Hj.
        edestruct (IH (S count2)
                     (set_joinedPID (Some (joined ++ [sender]))
                        (set_requiredPID (Some (delete count2 required)) t))
                     (delete count2 required) (joined ++ [sender]))
          as (k & required' & effects & t' & -> & Hr' & Hj' & Ho & Hi & Hn & Hlen & He & Hf);
          [done | done |].
        exists (S k), required'. eexists. exists t'.
        split; [reflexivity|]. repeat split; try done.
        -- rewrite Hj', <- app_assoc. done.
        -- rewrite length_delete in Hlen by eauto.
           apply lookup_lt_Some in Hs. lia.
        -- cbn [length app]. lia.
        -- rewrite Hf. by eapply slots_for_others_delete.
      * apply IH; done.
    + exists 0, required, [], t. rewrite app_nil_r. repeat split; try done; lia.
Qed.

(** With fuel for every entry from [count2] on, the loop takes at least one
    slot when one of those entries is a slot the requester may take. *)
Lemma jointablerequest_slots_grants fuel count2 t required joined i slot :
  requiredPID t = Some required -> joinedPID t = Some joined ->
  count2 <= i -> i < count2 + fuel ->
  required !! i = Some slot -> slot_matches sender slot = true ->
  exists joined',
    joinedPID (jointablerequest_slots fuel count2 self sender ownEvent t).1.2
      = Some (joined ++ sender :: joined').
Proof.
  revert count2 t required joined.
  induction fuel as [|fuel IH]; intros count2 t required joined Hr Hj Hle Hlt Hi Hm; [lia|].
  cbn [jointablerequest_slots]. rewrite Hr.
  destruct (required !! count2) as [slot0|] eqn:Hs.
  - fold (slot_matches sender slot0). destruct (slot_matches sender slot0) eqn:Hm0.
    + cbn [joinedPID set_requiredPID]. rewrite Hj.
      edestruct (jointablerequest_slots_spec fuel (S count2)
                   (set_joinedPID (Some (joined ++ [sender]))
                      (set_requiredPID (Some (delete count2 required)) t))
                   (delete count2 required) (joined ++ [sender]))
        as (k & required' & effects & t' & -> & _ & Hj' & _); [done | done |].
      cbn [fst snd]. exists (replicate k sender). by rewrite Hj', <- app_assoc.
    + apply (IH (S count2) t required joined Hr Hj); try done; [|lia].
      destruct (decide (i = count2)) as [->|]; [congruence | lia].
  - apply lookup_ge_None in Hs. apply lookup_lt_Some in Hi. lia.
Qed.

(** On a run of wildcards the loop takes every other slot. *)
Lemma jointablerequest_slots_wildcards fuel count2 t n joined :
  requiredPID t = Some (replicate n "*") -> joinedPID t = Some joined ->
  n < count2 + fuel ->
  let t' := (jointablerequest_slots fuel count2 self sender ownEvent t).1.2 in
  requiredPID t' = Some (replicate (n - (n - count2 + 1) / 2) "*") /\
  joinedPID t' = Some (joined ++ replicate ((n - count2 + 1) / 2) sender).
Proof.
  revert count2 t n joined.
  induction fuel as [|fuel IH]; intros count2 t n joined Hr Hj Hlt.
  { cbv zeta. cbn [jointablerequest_slots fst snd].
    replace (n - count2 + 1) with 1 by lia. cbn [Nat.div Nat.divmod fst].
    by rewrite Nat.sub_0_r, app_nil_r. }
  cbv zeta. cbn [jointablerequest_slots]. rewrite Hr.
  destruct (replicate n "*" !! count2) as [slot|] eqn:Hs.
  - apply lookup_replicate in Hs as [-> Hc].
    rewrite orb_true_r. cbn [joinedPID set_requiredPID]. rewrite Hj.
    assert (Hdel : delete count2 (replicate n "*") = replicate (n - 1) "*").
    { rewrite delete_take_drop, take_replicate, drop_replicate, <- replicate_add.
      f_equal. lia. }
    rewrite Hdel.
    edestruct (IH (S count2)
                 (set_joinedPID (Some (joined ++ [sender]))
                    (set_requiredPID (Some (replicate (n - 1) "*")) t))
                 (n - 1) (joined ++ [sender])) as [Hr' Hj']; [done | done | lia |].
    destruct (jointablerequest_slots fuel (S count2) self sender ownEvent _) as [[c t'] effects].
    cbn [fst snd] in *. rewrite Hr', Hj', <- app_assoc. cbn [app].
    assert (Hk : (n - count2 + 1) / 2 = S ((n - 1 - S count2 + 1) / 2)).
    { destruct (decide (n = S count2)) as [->|Hne].
      - replace (S count2 - count2 + 1) with 2 by lia.
        by replace (S count2 - 1 - S count2 + 1) with 1 by lia.
      - replace (n - count2 + 1) with ((n - 1 - S count2 + 1) + 1 * 2) by lia.
        rewrite Nat.div_add by lia. lia. }
    rewrite Hk. split; [f_equal; f_equal; lia | done].
  - apply lookup_ge_None in Hs. rewrite length_replicate in Hs.
    replace (n - count2 + 1) with 1 by lia. cbn [fst snd Nat.div Nat.divmod].
    rewrite Nat.sub_0_r, app_nil_r. done.
Qed.

End SlotLoop.

Section OwnerGrantsSeats.

Implicit Types (s : State) (locs : list nat) (t : TableObject).

(** A [jointablerequest] on an instance whose flag is set goes to the loop
    over the registry, with the flag cleared first. *)
Lemma handleP2PMessage_jointablerequest result message_ locs s :
  data result = Some message_ -> cpMsg message_ = Some "jointablerequest" ->
  openTables s = true -> _joinedTables s = Some locs ->
  handleP2PMessage (Some result) s
    = jointablerequest_tables locs message_ (from result)
        (mkEvent "jointablerequest" (EvResult result)) (set_openTables false s).
Proof.
  intros Hd Hm Ho Hj. unfold handleP2PMessage, isCPMsgEvent, isCPMessage.
  rewrite Hd. cbn [default id]. rewrite Hm.
  cbn [js_truthy negb default id String.eqb Ascii.eqb Bool.eqb].
  rewrite Ho. cbn [negb _joinedTables set_openTables]. by rewrite Hj.
Qed.

(** After the loop has run to its end over a registry without repeated
    entries, an owned table with the identifier and name asked for is what
    the slot loop has made of it. *)
Lemma jointablerequest_tables_at locs message_ sender ownEvent s s' l t :
  NoDup locs -> l ∈ locs -> heap s !! l = Some t ->
  js_eq_str (ownerPID t) (privateID s) = true ->
  js_eq (tableID t) (tableID message_) = true ->
  js_eq (tableName t) (tableName message_) = true ->
  jointablerequest_tables locs message_ sender ownEvent s = (Normal tt, s') ->
  heap s' !! l =
  Some (jointablerequest_slots (S (length (default [] (requiredPID t)))) 0
          (privateID s) sender ownEvent t).1.2.
Proof.
  revert s. induction locs as [|l0 locs IH]; intros s Hnd Hin Hl Hown Hid Hname Hrun.
  - by apply elem_of_nil in Hin.
  - apply NoDup_cons in Hnd as [Hl0 Hnd].
    cbn [jointablerequest_tables] in Hrun.
    destruct (decide (l = l0)) as [<-|Hne].
    + rewrite Hl, Hown, Hid, Hname in Hrun. cbn [andb] in Hrun.
      destruct (jointablerequest_slots _ 0 (privateID s) sender ownEvent t)
        as [[c t'] effects] eqn:Hslots.
      cbn [fst snd]. destruct c as [u|e]; [|done].
      destruct (requiredPID t') as [required'|]; [|done].
      pose proof (jointablerequest_tables_frame locs message_ sender ownEvent) as Hframe.
      match type of Hrun with jointablerequest_tables _ _ _ _ ?s1 = _ =>
        specialize (Hframe s1 l Hl0); rewrite Hrun in Hframe; cbn [snd] in Hframe;
        rewrite Hframe end.
      destruct (Nat.ltb _ _); cbn [heap set_openTables]; rewrite heap_emit_all;
        cbn [heap set_heap]; apply list_lookup_insert_eq; by eapply lookup_lt_Some.
    + apply elem_of_cons in Hin as [?|Hin]; [done|].
      destruct (heap s !! l0) as [currentTable|] eqn:Hcur; [|done].
      destruct (js_eq_str (ownerPID currentTable) (privateID s)); [|by apply IH].
      match type of Hrun with
        context [if ?c then jointablerequest_slots ?f ?n ?a ?b ?e ?u else ?z] =>
        destruct (if c then jointablerequest_slots f n a b e u else z)
          as [[c' t'] effects] end.
      destruct c' as [u|e]; [|done].
      destruct (requiredPID t') as [required'|]; [|done].
      match type of Hrun with jointablerequest_tables _ _ _ _ ?s1 = _ =>
        assert (Hl1 : heap s1 !! l = Some t);
        [|assert (Hp1 : privateID s1 = privateID s);
          [|rewrite <- Hp1; apply (IH s1); rewrite ?Hp1; done]] end.
      * destruct (Nat.ltb _ _); cbn [heap set_openTables]; rewrite heap_emit_all;
          cbn [heap set_heap]; by rewrite list_lookup_insert_ne.
      * destruct (Nat.ltb _ _); cbn [privateID set_openTables];
          by rewrite privateID_emit_all.
Qed.

End OwnerGrantsSeats.

Section OwnerGrantsSeatsTheorems.

Variables (result : Result) (message_ : TableObject) (s s' : State)
          (locs : list nat) (l : nat) (t : TableObject) (required joined : list string).

Hypothesis (Hdata : data result = Some message_).
Hypothesis (Hkind : cpMsg message_ = Some "jointablerequest").
Hypothesis (Hopen : openTables s = true).
Hypothesis (Hregistry : _joinedTables s = Some locs).
Hypothesis (Hnodup : NoDup locs).
Hypothesis (Hin : l ∈ locs).
Hypothesis (Hlookup : heap s !! l = Some t).
Hypothesis (Hown : ownerPID t = Some (privateID s)).
Hypothesis (Hid : js_eq (tableID t) (tableID message_) = true).
Hypothesis (Hname : js_eq (tableName t) (tableName message_) = true).
Hypothesis (Hrequired : requiredPID t = Some required).
Hypothesis (Hjoined : joinedPID t = Some joined).
Hypothesis (Hrun : handleP2PMessage (Some result) s = (Normal tt, s')).

Lemma owned_table_after_request :
  heap s' !! l =
  Some (jointablerequest_slots (S (length required)) 0 (privateID s) (from result)
          (mkEvent "jointablerequest" (EvResult result)) t).1.2.
Proof.
  rewrite (handleP2PMessage_jointablerequest result message_ locs s Hdata Hkind Hopen Hregistry)
    in Hrun.
  pose proof (jointablerequest_tables_at locs message_ (from result)
                (mkEvent "jointablerequest" (EvResult result))
                (set_openTables false s) s' l t Hnodup Hin Hlookup) as Hat.
  cbn [privateID set_openTables] in Hat. rewrite Hrequired in Hat. apply Hat; try done.
  unfold js_eq_str. rewrite Hown. cbn [js_eq]. apply String.eqb_refl.
Qed.

(** X19.  When the owner has handled a [jointablerequest] to its end, a
    table it owns with the [tableID] and [tableName] asked for has lost [k]
    slots and gained the requester [k] times at the end of [joinedPID], for
    some [k]: every seat taken out of [requiredPID] is matched by one entry
    in [joinedPID].  The slots the requester could not take (neither its
    identifier nor a wildcard) are all still there, in their order, and the
    table keeps its identifier, name and owner. *)
Theorem X19_seats_taken_are_seats_joined :
  exists k required' t',
    heap s' !! l = Some t' /\
    requiredPID t' = Some required' /\
    joinedPID t' = Some (joined ++ replicate k (from result)) /\
    length required' + k = length required /\
    slots_for_others (from result) required' = slots_for_others (from result) required /\
    ownerPID t' = ownerPID t /\ tableID t' = tableID t /\ tableName t' = tableName t.
Proof.
  destruct (jointablerequest_slots_spec (privateID s) (from result)
              (mkEvent "jointablerequest" (EvResult result))
              (S (length required)) 0 t required joined Hrequired Hjoined)
    as (k & required' & effects & t' & Hslots & Hr' & Hj' & Ho & Hi & Hn & Hlen & _ & Hf).
  exists k, required', t'. rewrite owned_table_after_request, Hslots. done.
Qed.

(** X20.  If one of the table's slots is the requester's identifier or a
    wildcard, the request is granted: after the owner has handled it, the
    requester is in [joinedPID], right after the members that were there. *)
Theorem X20_request_with_a_seat_is_granted (i : nat) (slot : string) :
  required !! i = Some slot -> slot_matches (from result) slot = true ->
  exists t' joined',
    heap s' !! l = Some t' /\
    joinedPID t' = Some (joined ++ from result :: joined').
Proof.
  intros Hi Hm.
  destruct (jointablerequest_slots_grants (privateID s) (from result)
              (mkEvent "jointablerequest" (EvResult result))
              (S (length required)) 0 t required joined i slot Hrequired Hjoined)
    as [joined' Hj']; try done; [lia | apply lookup_lt_Some in Hi; lia |].
  eexists. exists joined'. rewrite owned_table_after_request. done.
Qed.

(** X21.  One request on a table whose slots are [n] wildcards takes every
    other one: the requester is appended to [joinedPID] (n + 1) / 2 times and
    n / 2 wildcards are left. *)
Theorem X21_one_request_takes_every_other_wildcard (n : nat) :
  required = replicate n "*" ->
  exists t',
    heap (handleP2PMessage (Some result) s).2 !! l = Some t' /\
    requiredPID t' = Some (replicate (n / 2) "*") /\
    joinedPID t' = Some (joined ++ replicate ((n + 1) / 2) (from result)).
Proof.
  intros Hn. rewrite Hrun. cbn [snd]. pose proof Hrequired as Hr0. rewrite Hn in Hr0.
  destruct (jointablerequest_slots_wildcards (privateID s) (from result)
              (mkEvent "jointablerequest" (EvResult result))
              (S (length required)) 0 t n joined Hr0 Hjoined) as [Hr' Hj'].
  { rewrite Hn, length_replicate. lia. }
  eexists. rewrite owned_table_after_request. split; [done|].
  rewrite Hr', Hj', Nat.sub_0_r. split; [|done].
  f_equal. f_equal.
  pose proof (Nat.div_mod_eq n 2). pose proof (Nat.mod_upper_bound n 2).
  pose proof (Nat.div_mod_eq (n + 1) 2). pose proof (Nat.mod_upper_bound (n + 1) 2).
  lia.
Qed.

End OwnerGrantsSeatsTheorems.

Lemma X19_seats_taken_are_seats_joined_witness :
  let s' := (handleP2PMessage (Some request_from_R) owner_of_mixed_slots).2 in
  let t := created_table "me" (Some "mine") (PlayerList ["Q"; "*"; "R"; "*"]) None
             (Some "7") None in
  exists k required' t',
    heap s' !! 0 = Some t' /\
    requiredPID t' = Some required' /\
    joinedPID t' = Some (["me"] ++ replicate k (from request_from_R)) /\
    length required' + k = length ["Q"; "*"; "R"; "*"] /\
    slots_for_others (from request_from_R) required'
      = slots_for_others (from request_from_R) ["Q"; "*"; "R"; "*"] /\
    ownerPID t' = ownerPID t /\ tableID t' = tableID t /\ tableName t' = tableName t.
Proof.
  apply (X19_seats_taken_are_seats_joined request_from_R
           (default new_Object (data request_from_R)) owner_of_mixed_slots
           (handleP2PMessage (Some request_from_R) owner_of_mixed_slots).2 [0] 0
           (created_table "me" (Some "mine") (PlayerList ["Q"; "*"; "R"; "*"]) None
              (Some "7") None)
           ["Q"; "*"; "R"; "*"] ["me"]); try (vm_compute; reflexivity).
  - repeat constructor. by intros ?%elem_of_nil.
  - by left.
Defined.

Lemma X20_request_with_a_seat_is_granted_witness :
  let s' := (handleP2PMessage (Some request_from_R) owner_of_mixed_slots).2 in
  exists t' joined',
    heap s' !! 0 = Some t' /\
    joinedPID t' = Some (["me"] ++ from request_from_R :: joined').
Proof.
  apply (X20_request_with_a_seat_is_granted request_from_R
           (default new_Object (data request_from_R)) owner_of_mixed_slots
           (handleP2PMessage (Some request_from_R) owner_of_mixed_slots).2 [0] 0
           (created_table "me" (Some "mine") (PlayerList ["Q"; "*"; "R"; "*"]) None
              (Some "7") None)
           ["Q"; "*"; "R"; "*"] ["me"]) with (i := 2) (slot := "R"); try (vm_compute; reflexivity).
  - repeat constructor. by intros ?%elem_of_nil.
  - by left.
Defined.

Lemma X21_one_request_takes_every_other_wildcard_witness :
  let s' := (handleP2PMessage (Some request_from_R) owner_of_three_slots).2 in
  exists t',
    heap s' !! 0 = Some t' /\
    requiredPID t' = Some (replicate (3 / 2) "*") /\
    joinedPID t' = Some (["me"] ++ replicate ((3 + 1) / 2) (from request_from_R)).
Proof.
  apply (X21_one_request_takes_every_other_wildcard request_from_R
           (default new_Object (data request_from_R)) owner_of_three_slots
           (handleP2PMessage (Some request_from_R) owner_of_three_slots).2 [0] 0
           (created_table "me" (Some "mine") (PlayerCount 3) None (Some "7") None)
           ["*"; "*"; "*"] ["me"]); try (vm_compute; reflexivity).
  - repeat constructor. by intros ?%elem_of_nil.
  - by left.
Defined.

(** X22.  When the owner has handled a [jointablerequest] to its end, the
    flag [openTables] is true exactly when some table of the registry is
    owned by the local peer and still has a slot; the registry itself holds
    the same entries as before. *)
Theorem X22_openTables_recomputed
    (result : Result) (message_ : TableObject) (locs : list nat) (s s' : State) :
  data result = Some message_ -> cpMsg message_ = Some "jointablerequest" ->
  openTables s = true -> _joinedTables s = Some locs -> NoDup locs ->
  handleP2PMessage (Some result) s = (Normal tt, s') ->
  _joinedTables s' = Some locs /\
  openTables s' = existsb (owned_and_open (privateID s') (heap s')) locs.
Proof. apply openTables_after_jointablerequest. Qed.

Lemma X22_openTables_recomputed_witness :
  let s' := (handleP2PMessage (Some request_from_R) owner_of_three_slots).2 in
  _joinedTables s' = Some [0] /\
  openTables s' = existsb (owned_and_open (privateID s') (heap s')) [0].
Proof.
  apply (X22_openTables_recomputed request_from_R (default new_Object (data request_from_R))
           [0] owner_of_three_slots
           (handleP2PMessage (Some request_from_R) owner_of_three_slots).2);
    try (vm_compute; reflexivity).
  repeat constructor. by intros ?%elem_of_nil.
Defined.

(** ** A peer leaves *)

Section PeerLeaves.

Implicit Types (s : State) (locs : list nat).

Lemma index_of_spec pid l start count2 :
  index_of pid l start = Some count2 ->
  start <= count2 /\ l !! (count2 - start) = Some pid /\ pid ∉ take (count2 - start) l.
Proof.
  revert start. induction l as [|x l IH]; intros start; [done|].
  cbn [index_of]. destruct (String.eqb x pid) eqn:Hx.
  - intros [= <-]. apply String.eqb_eq in Hx as ->.
    rewrite Nat.sub_diag. split; [lia|]. split; [done|]. cbn. by intros ?%elem_of_nil.
  - intros H. apply IH in H as (Hle & Hl & Hn).
    apply String.eqb_neq in Hx.
    replace (count2 - start) with (S (count2 - S start)) by lia.
    split; [lia|]. split; [done|]. cbn [take].
    intros [->|Hin]%elem_of_cons; [done | by apply Hn].
Qed.

Lemma leavetable_tables_spec locs message_ sender ownEvent s :
  let s' := (leavetable_tables locs message_ sender ownEvent s).2 in
  heap s' = heap s /\ log s' = log s \/
  exists l t joined count2,
    l ∈ locs /\ heap s !! l = Some t /\
    js_eq (tableID t) (tableID message_) = true /\
    js_eq (tableName t) (tableName message_) = true /\
    joinedPID t = Some joined /\
    joined !! count2 = Some sender /\ (sender ∉ take count2 joined) /\
    heap s' = <[l := set_joinedPID (Some (delete count2 joined)) t]> (heap s) /\
    log s' = log s ++ [dispatchEvent ownEvent].
Proof.
  cbn zeta. induction locs as [|l locs IH]; [by left|].
  cbn [leavetable_tables].
  assert (Hrest :
    heap (leavetable_tables locs message_ sender ownEvent s).2 = heap s /\
    log (leavetable_tables locs message_ sender ownEvent s).2 = log s \/
    exists l0 t joined count2,
      l0 ∈ l :: locs /\ heap s !! l0 = Some t /\
      js_eq (tableID t) (tableID message_) = true /\
      js_eq (tableName t) (tableName message_) = true /\
      joinedPID t = Some joined /\
      joined !! count2 = Some sender /\ (sender ∉ take count2 joined) /\
      heap (leavetable_tables locs message_ sender ownEvent s).2
        = <[l0 := set_joinedPID (Some (delete count2 joined)) t]> (heap s) /\
      log (leavetable_tables locs message_ sender ownEvent s).2
        = log s ++ [dispatchEvent ownEvent]).
  { destruct IH as [?|(l0 & t & joined & count2 & Hin & ?)]; [by left|].
    right. exists l0, t, joined, count2. split; [by right | done]. }
  destruct (heap s !! l) as [currentTable|] eqn:Hl; [|by left].
  destruct (_ && _) eqn:Hsame; [|exact Hrest].
  apply andb_prop in Hsame as [Hid Hname].
  destruct (joinedPID currentTable) as [joined|] eqn:Hj; [|by left].
  destruct (index_of sender joined 0) as [count2|] eqn:Hi; [|exact Hrest].
  apply index_of_spec in Hi as (_ & Hat & Hbefore). rewrite Nat.sub_0_r in Hat, Hbefore.
  right. exists l, currentTable, joined, count2.
  split; [by left|]. by repeat split.
Qed.

Lemma openTables_leavetable_tables locs message_ sender ownEvent s :
  openTables (leavetable_tables locs message_ sender ownEvent s).2 = openTables s.
Proof.
  induction locs as [|l locs IH]; [done|].
  cbn [leavetable_tables]. by repeat case_match.
Qed.

Lemma index_of_None pid l start : index_of pid l start = None -> pid ∉ l.
Proof.
  revert start. induction l as [|x l IH]; intros start; [by intros _ ?%elem_of_nil|].
  cbn [index_of]. destruct (String.eqb x pid) eqn:Hx; [done|].
  intros H%IH [->|Hin]%elem_of_cons; [|done].
  by rewrite String.eqb_refl in Hx.
Qed.

(** The loop of the [leavetable] case passes over a table it does not end at. *)
Lemma leavetable_tables_skip l locs message_ sender ownEvent s t :
  heap s !! l = Some t -> leaves_here sender message_ t = false ->
  leavetable_tables (l :: locs) message_ sender ownEvent s
    = leavetable_tables locs message_ sender ownEvent s.
Proof.
  intros Hl Hno. cbn [leavetable_tables]. rewrite Hl. unfold leaves_here in Hno.
  destruct (js_eq (tableID t) (tableID message_) && js_eq (tableName t) (tableName message_));
    [|done].
  cbn [andb] in Hno. destruct (joinedPID t) as [joined|]; [|done].
  destruct (index_of sender joined 0) as [count2|] eqn:Hi; [|done].
  apply index_of_spec in Hi as (_ & Hat & _).
  apply bool_decide_eq_false in Hno. exfalso. apply Hno.
  by eapply list_elem_of_lookup_2.
Qed.

Lemma leavetable_tables_none locs message_ sender ownEvent s :
  (forall l, l ∈ locs ->
     exists t, heap s !! l = Some t /\ leaves_here sender message_ t = false) ->
  leavetable_tables locs message_ sender ownEvent s = (Normal tt, s).
Proof.
  induction locs as [|l0 locs IH]; intros Hall; [done|].
  destruct (Hall l0) as (t & Hl & Hno); [by left|].
  rewrite (leavetable_tables_skip _ _ _ _ _ _ t Hl Hno).
  apply IH. intros l Hin. apply Hall. by right.
Qed.

Lemma leavetable_tables_first locs message_ sender ownEvent s count l t :
  locs !! count = Some l -> heap s !! l = Some t -> leaves_here sender message_ t = true ->
  (forall j l', j < count -> locs !! j = Some l' ->
     exists t', heap s !! l' = Some t' /\ leaves_here sender message_ t' = false) ->
  match joinedPID t with
  | None => leavetable_tables locs message_ sender ownEvent s = (Throw TypeError, s)
  | Some joined =>
      exists count2,
        joined !! count2 = Some sender /\ (sender ∉ take count2 joined) /\
        leavetable_tables locs message_ sender ownEvent s
          = (Normal tt,
             emit (dispatchEvent ownEvent)
               (set_heap (<[l := set_joinedPID (Some (delete count2 joined)) t]> (heap s)) s))
  end.
Proof.
  revert count. induction locs as [|l0 locs IH]; intros count Hc Hl Hyes Hbefore; [done|].
  destruct count as [|count].
  - cbn in Hc. injection Hc as ->. cbn [leavetable_tables]. rewrite Hl.
    unfold leaves_here in Hyes. apply andb_prop in Hyes as [-> Hmember].
    destruct (joinedPID t) as [joined|]; [|done].
    destruct (index_of sender joined 0) as [count2|] eqn:Hi.
    + apply index_of_spec in Hi as (_ & Hat & Hnot). rewrite Nat.sub_0_r in Hat, Hnot.
      by exists count2.
    + apply index_of_None in Hi. by apply bool_decide_eq_true in Hmember.
  - destruct (Hbefore 0 l0) as (t' & Hl' & Hno); [lia | done |].
    rewrite (leavetable_tables_skip _ _ _ _ _ _ t' Hl' Hno).
    apply (IH count); [done | done | done |].
    intros j l' Hj Hl0. apply (Hbefore (S j) l'); [lia | done].
Qed.

(** A [leavetable] notification goes to the [leavetable] case. *)
Lemma handleP2PMessage_leavetable result message_ s :
  data result = Some message_ -> cpMsg message_ = Some "leavetable" ->
  handleP2PMessage (Some result) s
    = leavetable_tables (default [] (_joinedTables s)) message_ (from result)
        (mkEvent "leavetable" (EvResult result))
        (set_joinedTables (Some (default [] (_joinedTables s))) s).
Proof.
  intros Hd Hm. unfold handleP2PMessage, isCPMsgEvent, isCPMessage.
  rewrite Hd. cbn [default id]. rewrite Hm. reflexivity.
Qed.

End PeerLeaves.

(** X23.  A [leavetable] notification is handled at the first table of the
    registry that has the identifier and name of the message and the sender
    among its members: that table loses the first occurrence of the sender in
    [joinedPID], one [leavetable] event is dispatched, and nothing else
    changes.  When the registry has no such table, nothing changes and
    nothing is dispatched.  (A table with that identifier and name but no
    [joinedPID] at all, met before any such table, ends the handling with a
    [TypeError] and no change.)  In no case is the seat offered again:
    [requiredPID] of every table and the flag [openTables] stay as they are,
    the registry keeps its entries, and at most one table object changes. *)
Theorem X23_leavetable_frees_no_seat (result : Result) (message_ : TableObject) (s : State) :
  data result = Some message_ -> cpMsg message_ = Some "leavetable" ->
  let locs := default [] (_joinedTables s) in
  let ownEvent := mkEvent "leavetable" (EvResult result) in
  let after := handleP2PMessage (Some result) s in
  let s' := after.2 in
  (registry_ok s ->
   (none_registered (leaves_here (from result) message_) s ->
      after = (Normal tt, set_joinedTables (Some locs) s)) /\
   (forall count l t,
      first_registered (leaves_here (from result) message_) s count l t ->
      match joinedPID t with
      | None => after = (Throw TypeError, set_joinedTables (Some locs) s)
      | Some joined =>
          exists count2,
            joined !! count2 = Some (from result) /\ (from result ∉ take count2 joined) /\
            after =
              (Normal tt,
               emit (dispatchEvent ownEvent)
                 (set_heap (<[l := set_joinedPID (Some (delete count2 joined)) t]> (heap s))
                    (set_joinedTables (Some locs) s)))
      end)) /\
  openTables s' = openTables s /\
  default [] (_joinedTables s') = default [] (_joinedTables s) /\
  map requiredPID (heap s') = map requiredPID (heap s) /\
  (heap s' = heap s /\ log s' = log s \/
   exists l t joined count2,
     l ∈ default [] (_joinedTables s) /\ heap s !! l = Some t /\
     js_eq (tableID t) (tableID message_) = true /\
     js_eq (tableName t) (tableName message_) = true /\
     joinedPID t = Some joined /\
     joined !! count2 = Some (from result) /\ (from result ∉ take count2 joined) /\
     heap s' = <[l := set_joinedPID (Some (delete count2 joined)) t]> (heap s) /\
     log s' = log s ++ [dispatchEvent (mkEvent "leavetable" (EvResult result))]).
Proof.
  intros Hd Hm locs ownEvent after s'.
  assert (Hafter : after = leavetable_tables locs message_ (from result) ownEvent
                             (set_joinedTables (Some locs) s)).
  { subst after. by apply handleP2PMessage_leavetable. }
  split.
  { intros Hok. rewrite Hafter. split.
    - intros Hnone. apply leavetable_tables_none.
      exact (none_registered_all _ s Hok Hnone).
    - intros count l t Hfirst.
      pose proof (first_registered_before _ s count l t Hok Hfirst) as Hbefore.
      destruct Hfirst as (Hcount & Hl & Hyes & _).
      exact (leavetable_tables_first locs message_ (from result) ownEvent
               (set_joinedTables (Some locs) s) count l t Hcount Hl Hyes Hbefore). }
  assert (Hs' : s' = (leavetable_tables locs message_ (from result) ownEvent
                        (set_joinedTables (Some locs) s)).2).
  { subst s'. by rewrite Hafter. }
  pose proof (leavetable_tables_spec locs message_ (from result) ownEvent
                (set_joinedTables (Some locs) s)) as Hspec.
  pose proof (same_but_tables_leavetable_tables locs message_ (from result) ownEvent
                (set_joinedTables (Some locs) s)) as Hsame.
  pose proof (openTables_leavetable_tables locs message_ (from result) ownEvent
                (set_joinedTables (Some locs) s)) as Hopen.
  cbn zeta in Hspec. rewrite <- Hs' in Hspec, Hsame, Hopen.
  destruct Hsame as (_ & _ & _ & _ & _ & _ & Hj & _).
  split; [exact Hopen|]. split; [by rewrite Hj|].
  split; [|exact Hspec].
  destruct Hspec as [[-> _]|(l & t & joined & count2 & _ & Hl & _ & _ & _ & _ & _ & -> & _)];
    [done|].
  cbn [heap set_joinedTables] in Hl |- *.
  rewrite list_fmap_insert. apply list_insert_id.
  rewrite list_lookup_fmap, Hl. reflexivity.
Qed.

Lemma X23_leavetable_frees_no_seat_witness :
  let result := mkResult "B" (Some (copyTable joined_table_of_B (buildCPMessage "leavetable"))) in
  let s := in_table_of_B in
  let t := copyTable joined_table_of_B new_Object in
  handleP2PMessage (Some result) s =
    (Normal tt,
     emit (dispatchEvent (mkEvent "leavetable" (EvResult result)))
       (set_heap (<[0 := set_joinedPID (Some ["me"]) t]> (heap s))
          (set_joinedTables (Some (default [] (_joinedTables s))) s))).
Proof.
  intros result s t.
  destruct (X23_leavetable_frees_no_seat result
              (copyTable joined_table_of_B (buildCPMessage "leavetable")) s eq_refl eq_refl)
    as (Hregistry & _).
  assert (Hok : registry_ok s) by (vm_compute; repeat constructor).
  destruct (Hregistry Hok) as [_ Hfirst].
  assert (Hhere : first_registered
                    (leaves_here (from result)
                       (copyTable joined_table_of_B (buildCPMessage "leavetable")))
                    s 0 0 t).
  { split; [vm_compute; reflexivity|]. split; [vm_compute; reflexivity|].
    split; [vm_compute; reflexivity|]. intros j l' t' Hj. lia. }
  specialize (Hfirst 0 0 t Hhere). cbn [joinedPID copyTable joined_table_of_B t] in Hfirst.
  destruct Hfirst as (count2 & Hat & Hnot & Hafter).
  destruct count2 as [|count2].
  - exact Hafter.
  - exfalso. apply Hnot. cbn. by left.
Defined.

(** ** What a notification can set off *)

Section NotificationEffects.

Implicit Types (s : State) (locs : list nat).

Lemma log_emit_all es s : log (emit_all es s) = log s ++ es.
Proof.
  revert s. induction es as [|e es IH]; intros s; cbn [emit_all foldl].
  - by rewrite app_nil_r.
  - fold (emit_all es (emit e s)). rewrite IH. cbn [log emit]. by rewrite <- app_assoc.
Qed.

Lemma log_captureTable r s : log (captureTable r s).2 = log s.
Proof. unfold captureTable. by repeat case_match. Qed.

(** What the slot loop hands out: updates of the table to its members other
    than the local peer, and the event of the request. *)
Lemma jointablerequest_slots_effects fuel count2 self sender ownEvent currentTable :
  Forall (fun e =>
            e = dispatchEvent ownEvent \/
            exists msg, e = p2p_send msg (createTablePIDList self (default [] (joinedPID msg))) /\
                        cpMsg msg = Some "jointable")
    (jointablerequest_slots fuel count2 self sender ownEvent currentTable).2.
Proof.
  revert count2 currentTable. induction fuel as [|fuel IH]; intros count2 currentTable;
    cbn [jointablerequest_slots]; [by constructor|].
  destruct (requiredPID currentTable) as [required|]; [|by constructor].
  destruct (required !! count2) as [slot|]; [|by constructor].
  destruct (_ || _); [|apply IH].
  cbn [joinedPID set_requiredPID].
  destruct (joinedPID currentTable) as [joined|]; [|by constructor].
  match goal with |- context [jointablerequest_slots fuel ?n ?a ?b ?e ?t] =>
    specialize (IH n t);
    destruct (jointablerequest_slots fuel n a b e t) as [[c' t'] rest] end.
  cbn [snd app] in IH |- *.
  constructor; [|constructor; [by left | exact IH]].
  right.
  exists (copyTable (set_joinedPID (Some (joined ++ [sender]))
                       (set_requiredPID (Some (delete count2 required)) currentTable))
            (buildCPMessage "jointable")).
  split; reflexivity.
Qed.

Lemma jointablerequest_tables_effects locs message_ sender ownEvent s :
  exists es,
    log (jointablerequest_tables locs message_ sender ownEvent s).2 = log s ++ es /\
    Forall (fun e =>
              e = dispatchEvent ownEvent \/
              exists msg,
                e = p2p_send msg (createTablePIDList (privateID s) (default [] (joinedPID msg))) /\
                cpMsg msg = Some "jointable") es.
Proof.
  revert s. induction locs as [|l locs IH]; intros s.
  { exists []. by rewrite app_nil_r. }
  cbn [jointablerequest_tables].
  destruct (heap s !! l) as [currentTable|]; [|exists []; by rewrite app_nil_r].
  destruct (js_eq_str _ _); [|apply IH].
  assert (Heff : exists c' t' effects,
            (if js_eq (tableID currentTable) (tableID message_) &&
                js_eq (tableName currentTable) (tableName message_)
             then jointablerequest_slots (S (length (default [] (requiredPID currentTable)))) 0
                    (privateID s) sender ownEvent currentTable
             else (Normal tt, currentTable, [])) = (c', t', effects) /\
            Forall (fun e =>
              e = dispatchEvent ownEvent \/
              exists msg,
                e = p2p_send msg (createTablePIDList (privateID s) (default [] (joinedPID msg))) /\
                cpMsg msg = Some "jointable") effects).
  { destruct (_ && _).
    - pose proof (jointablerequest_slots_effects
                    (S (length (default [] (requiredPID currentTable)))) 0
                    (privateID s) sender ownEvent currentTable) as H.
      destruct (jointablerequest_slots _ _ _ _ _ _) as [[c' t'] effects].
      by exists c', t', effects.
    - exists (Normal tt), currentTable, []. by split; [|constructor]. }
  destruct Heff as (c' & t' & effects & -> & Heff).
  assert (Hlog : log (emit_all effects (set_heap (<[l := t']> (heap s)) s)) = log s ++ effects).
  { by rewrite log_emit_all. }
  destruct c' as [u|e]; [|by exists effects].
  destruct (requiredPID t') as [required|]; [|by exists effects].
  match goal with |- context [jointablerequest_tables locs _ _ _ ?s0] =>
    destruct (IH s0) as (es & Hes & HF);
    assert (Hlog0 : log s0 = log s ++ effects) by (by destruct (Nat.ltb _ _));
    assert (Hself : privateID s0 = privateID s)
      by (destruct (Nat.ltb _ _); cbn [privateID set_openTables];
          apply (same_but_tables_emit_all effects (set_heap (<[l := t']> (heap s)) s)))
  end.
  exists (effects ++ es). rewrite Hes, Hlog0, <- app_assoc. split; [done|].
  apply Forall_app. split; [done|]. by rewrite Hself in HF.
Qed.

Lemma handle_jointable_effects result message_ ownEvent s :
  log (handle_jointable result message_ ownEvent s).2 = log s \/
  log (handle_jointable result message_ ownEvent s).2 = log s ++ [dispatchEvent ownEvent].
Proof.
  unfold handle_jointable.
  repeat case_match; cbn [snd log emit set_heap set_joinedTables set_joinTableRequests];
    rewrite ?log_settle; cbn [log emit set_heap set_joinedTables];
    rewrite ?log_clearTimer; cbn [log set_joinTableRequests set_joinedTables]; auto.
Qed.

End NotificationEffects.

(** X24.  Whatever notification comes in, and however handling it ends, the
    instance only appends to what it has handed to its collaborators, and
    what it appends is of two kinds: the event of the notification itself
    (named after its [cpMsg] and carrying the notification), and, only for a
    [jointablerequest], [jointable] updates sent to the members of the table
    they carry, the local peer left out.  Handling a notification never
    broadcasts, and never sends anything but such an update. *)
Theorem X24_notification_effects (result : Result) (s : State) :
  exists es,
    log (handleP2PMessage (Some result) s).2 = log s ++ es /\
    Forall (answers (privateID s) result) es.
Proof.
  assert (Hnone : exists es, log s = log s ++ es /\ Forall (answers (privateID s) result) es).
  { exists []. by rewrite app_nil_r. }
  assert (Hone : exists es,
            log s ++ [dispatchEvent
                        (mkEvent (default "" (cpMsg (default new_Object (data result))))
                           (EvResult result))] = log s ++ es /\
            Forall (answers (privateID s) result) es).
  { eexists. split; [reflexivity|]. by repeat constructor. }
  unfold handleP2PMessage.
  destruct (negb (isCPMsgEvent (Some result))); [exact Hnone|].
  destruct (String.eqb _ "newtable").
  { destruct (captureNewTables s); [|exact Hnone].
    pose proof (log_captureTable result s) as Hc.
    destruct (captureTable result s) as [[] s0]; cbn [snd] in Hc |- *.
    - cbn [log emit]. rewrite Hc. exact Hone.
    - rewrite Hc. exact Hnone. }
  destruct (String.eqb _ "jointablerequest") eqn:Hkind.
  { apply String.eqb_eq in Hkind.
    destruct (negb (openTables s)); [exact Hnone|].
    destruct (_joinedTables (set_openTables false s)) as [locs|]; [|exact Hnone].
    destruct (jointablerequest_tables_effects locs (default new_Object (data result))
                (from result)
                (mkEvent (default "" (cpMsg (default new_Object (data result))))
                   (EvResult result)) (set_openTables false s)) as (es & Hes & HF).
    exists es. split; [exact Hes|].
    eapply Forall_impl; [exact HF|].
    intros e [->|(msg & -> & Hmsg)]; [reflexivity|].
    cbn [answers privateID set_openTables]. split; [exact Hkind|]. split; [exact Hmsg|].
    split; [|reflexivity]. intros Hin%createTablePIDList_spec. by destruct Hin. }
  destruct (String.eqb _ "jointable").
  { destruct (handle_jointable_effects result (default new_Object (data result))
                (mkEvent (default "" (cpMsg (default new_Object (data result))))
                   (EvResult result)) s) as [-> | ->]; [exact Hnone | exact Hone]. }
  destruct (String.eqb _ "tablemsg"); [exact Hone|].
  destruct (String.eqb _ "leavetable"); [|exact Hnone].
  destruct (leavetable_tables_spec (default [] (_joinedTables s))
              (default new_Object (data result)) (from result)
              (mkEvent (default "" (cpMsg (default new_Object (data result))))
                 (EvResult result))
              (set_joinedTables (Some (default [] (_joinedTables s))) s))
    as [[_ ->] | (? & ? & ? & ? & _ & _ & _ & _ & _ & _ & _ & _ & ->)];
    [exact Hnone | exact Hone].
Qed.

(** ** Queries that do not reach the filter loop *)

(** X25.  Whatever the free identifier [ownerID] resolves to, a call of
    [getJoinedTables] without any filter returns normally with every
    registered table, in registry order, and with a filter it returns
    normally with no table when the registry is absent or empty.  No such
    call changes a table object, the tables registered or what has been
    handed out. *)
Theorem X25_getJoinedTables_outside_the_loop
    (ownerID : GlobalLookup) (tableName_ tableID_ ownerPID_ : option string) (s : State) :
  (tableName_ = None /\ tableID_ = None /\ ownerPID_ = None) \/
    default [] (_joinedTables s) = [] ->
  let r := getJoinedTables ownerID tableName_ tableID_ ownerPID_ s in
  r.1 = Normal (joinedTables s) /\
  joinedTables r.2 = joinedTables s /\ heap r.2 = heap s /\ log r.2 = log s /\
  _joinTableRequests r.2 = _joinTableRequests s /\ openTables r.2 = openTables s.
Proof.
  unfold getJoinedTables, joinedTables.
  intros [(-> & -> & ->)|Hempty]; cbn zeta.
  - destruct (_joinedTables s) as [locs|] eqn:Hj; cbn; by rewrite ?Hj.
  - destruct (_joinedTables s) as [locs|] eqn:Hj; [|done].
    cbn [default id] in Hempty. subst locs.
    destruct tableName_, tableID_, ownerPID_; cbn; by rewrite ?Hj.
Qed.

Lemma X25_getJoinedTables_outside_the_loop_witness :
  (getJoinedTables Unresolvable None None None two_joined).1 = Normal (joinedTables two_joined).
Proof.
  apply (X25_getJoinedTables_outside_the_loop Unresolvable None None None two_joined).
  left. by repeat split.
Defined.

(** ** Messages built from a table *)

(** X26.  A message built from a table by [copyTable] onto [buildCPMessage]
    of a non-empty type is recognised by [isCPMsgEvent] whoever sends it, and
    is a valid table exactly when the table it was built from is one: the
    properties added to a table locally (beacon, timers, promise handles) and
    the message type play no part in validity. *)
Theorem X26_built_message_is_as_valid_as_its_table
    (sourceTable targetObject : TableObject) (messageType sender : string) :
  messageType <> "" ->
  isValidTable (Some (copyTable sourceTable targetObject)) = isValidTable (Some sourceTable) /\
  isCPMsgEvent
    (Some (mkResult sender (Some (copyTable sourceTable (buildCPMessage messageType))))) = true.
Proof.
  intros Hne. split; [reflexivity|].
  cbn. destruct messageType; [done | reflexivity].
Qed.

Lemma X26_built_message_is_as_valid_as_its_table_witness :
  isValidTable (Some (copyTable joined_table_of_B new_Object)) = isValidTable (Some joined_table_of_B) /\
  isCPMsgEvent
    (Some (mkResult "A" (Some (copyTable joined_table_of_B (buildCPMessage "newtable"))))) = true.
Proof.
  apply (X26_built_message_is_as_valid_as_its_table joined_table_of_B new_Object "newtable" "A").
  discriminate.
Defined.

(** ** Two peers *)

(** Brings the left-hand side of an equation between states, once no test on
    an unknown string is left in it, to its normal form. *)
Ltac normal_form :=
  match goal with
  | |- ?l = ?e => let r := eval vm_compute in l in unify e r; vm_compute; reflexivity
  end.

(** X27.  The join handshake between two fresh, connected instances, each
    receiving exactly what the other has handed to the transport.  A peer
    creates a table with one seat, a wildcard or reserved for the second peer,
    and its beacon; the second peer captures the announcement, asks to join
    the captured table, and the owner's update reaches it.  Then both peers
    hold the same table, with both of them in [joinedPID] and no seat left;
    the promise of [joinTable] is fulfilled, no request is pending and no
    timeout is left at the joiner; the owner has no open table, and its
    beacon stops at the next tick without another announcement. *)
Theorem X27_join_handshake (owner joiner name tid slot : string) (replyTimeout : Z) :
  owner <> "" -> tid <> "" -> owner <> joiner -> slot = "*" \/ slot = joiner ->
  let ann := copyTable (offered_table owner name tid slot) (buildCPMessage "newtable") in
  let req := copyTable (offered_table owner name tid slot) (buildCPMessage "jointablerequest") in
  let upd := copyTable (seated_table owner joiner name tid) (buildCPMessage "jointable") in
  let A1 := run [Start true;
                 CreateTable (Some name) (PlayerList [slot]) None (Some tid) None true]
              (new_CypherPoker owner) in
  let B1 := run [Start true; SetCaptureNewTables true; delivers owner ann]
              (new_CypherPoker joiner) in
  let B2 := run [JoinTable (head (announcedTables B1)) replyTimeout] B1 in
  let A2 := run [delivers joiner req] A1 in
  let B3 := run [delivers owner upd] B2 in
  let A3 := run [TimerFires 0 ThisInstance] A2 in
  broadcasts A1 = [ann] /\
  announcedTables B1 = [ann] /\
  sends B2 = [(req, [owner])] /\
  sends A2 = [(upd, [joiner])] /\
  joinedTables A2 = [set_beaconID (Some 0) (seated_table owner joiner name tid)] /\
  openTables A2 = false /\
  joinedTables B3 = [seated_table owner joiner name tid] /\
  promises B3 = [Fulfilled] /\ pending B3 = [] /\ timers B3 = [] /\
  broadcasts A3 = [ann] /\ timers A3 = [].
Proof.
  intros HA Hid HAB Hslot ann req upd A1 B1 B2 A2 B3 A3.
  assert (HPL : createTablePIDList owner [owner; joiner] = [joiner]).
  { unfold createTablePIDList. rewrite filter_cons_False by (intros H; by apply H).
    rewrite filter_cons_True by congruence. reflexivity. }
  apply String.eqb_neq in HA, Hid, HAB.
  assert (Hjoin : (slot =? "*")%string || (slot =? joiner)%string = true).
  { destruct Hslot as [-> | ->]; [reflexivity|]. by rewrite String.eqb_refl, orb_true_r. }
  assert (Hgrant : (slot =? joiner)%string || (slot =? "*")%string = true).
  { by rewrite orb_comm. }
  eassert (HA1 : A1 = _).
  { subst A1. unfold run, foldl, exec, createTable, setTimer, announceTable.
    cbn -[createTablePIDList]. normal_form. }
  clearbody A1. subst A1.
  eassert (HB1 : B1 = _).
  { subst B1 ann. unfold delivers, offered_table, created_table.
    unfold run, foldl, exec, handleP2PMessage, captureTable.
    cbn -[createTablePIDList]. rewrite ?HA, ?Hid. cbn -[createTablePIDList]. normal_form. }
  clearbody B1. subst B1.
  eassert (HB2 : B2 = _).
  { subst B2. unfold run, foldl, exec, joinTable, new_Promise, sendJoinTableRequest, setTimer.
    cbn -[createTablePIDList]. rewrite ?HA, ?Hid. cbn -[createTablePIDList].
    rewrite ?Hjoin. cbn -[createTablePIDList]. normal_form. }
  clearbody B2. subst B2.
  eassert (HA2 : A2 = _).
  { subst A2 req. unfold delivers, offered_table, created_table.
    unfold run, foldl, exec, handleP2PMessage.
    cbn -[createTablePIDList]. rewrite ?String.eqb_refl. cbn -[createTablePIDList].
    rewrite ?Hgrant. cbn -[createTablePIDList]. rewrite ?HPL. normal_form. }
  clearbody A2. subst A2.
  eassert (HB3 : B3 = _).
  { subst B3 upd. unfold delivers, seated_table, run, foldl, exec.
    erewrite handleP2PMessage_jointable by reflexivity.
    unfold handle_jointable.
    cbn [find_by_id_name find_accepted default id _joinedTables _joinTableRequests
         set_joinedTables from js_eq_str js_eq ownerPID tableID tableName copyTable].
    rewrite !String.eqb_refl. normal_form. }
  clearbody B3. subst B3.
  subst A3 ann req upd. unfold offered_table, seated_table, created_table. clear.
  repeat split; vm_compute; reflexivity.
Qed.

Lemma X27_join_handshake_witness :
  let ann := copyTable (offered_table "A" "tb" "2" "*") (buildCPMessage "newtable") in
  let upd := copyTable (seated_table "A" "B" "tb" "2") (buildCPMessage "jointable") in
  let B1 := run [Start true; SetCaptureNewTables true; delivers "A" ann] (new_CypherPoker "B") in
  let B2 := run [JoinTable (head (announcedTables B1)) 20000] B1 in
  joinedTables (run [delivers "A" upd] B2) = [seated_table "A" "B" "tb" "2"].
Proof.
  pose proof (X27_join_handshake "A" "B" "tb" "2" "*" 20000) as H.
  destruct H as (_ & _ & _ & _ & _ & _ & H & _);
    [discriminate | discriminate | discriminate | by left | exact H].
Defined.

(** X28.  A seat that has been left is not offered again.  After the
    handshake above the joiner leaves the table and the owner receives the
    [leavetable] notification the joiner has sent: the joiner's registry is
    empty, the owner's table has the owner as its only member and still no
    required seat, the owner still has no open table, and a later
    [jointablerequest] from any peer, whatever it carries, leaves the owner
    as it is: nothing is answered and no event is dispatched. *)
Theorem X28_left_seat_is_not_offered_again
    (owner joiner name tid slot : string) (replyTimeout : Z)
    (third : string) (payload : TableObject) :
  owner <> "" -> tid <> "" -> owner <> joiner -> slot = "*" \/ slot = joiner ->
  cpMsg payload = Some "jointablerequest" ->
  let ann := copyTable (offered_table owner name tid slot) (buildCPMessage "newtable") in
  let req := copyTable (offered_table owner name tid slot) (buildCPMessage "jointablerequest") in
  let upd := copyTable (seated_table owner joiner name tid) (buildCPMessage "jointable") in
  let lv := copyTable (seated_table owner joiner name tid) (buildCPMessage "leavetable") in
  let A1 := run [Start true;
                 CreateTable (Some name) (PlayerList [slot]) None (Some tid) None true]
              (new_CypherPoker owner) in
  let B1 := run [Start true; SetCaptureNewTables true; delivers owner ann]
              (new_CypherPoker joiner) in
  let B2 := run [JoinTable (head (announcedTables B1)) replyTimeout] B1 in
  let A2 := run [delivers joiner req] A1 in
  let B3 := run [delivers owner upd] B2 in
  let B4 := run [LeaveJoinedTable (head (joinedTables B3))] B3 in
  let A4 := run [delivers joiner lv] A2 in
  sends B4 = [(req, [owner]); (lv, [owner])] /\
  joinedTables B4 = [] /\
  joinedTables A4 =
    [set_beaconID (Some 0)
       (set_joinedPID (Some [owner]) (seated_table owner joiner name tid))] /\
  openTables A4 = false /\
  run [delivers third payload] A4 = A4.
Proof.
  intros HA Hid HAB Hslot Hpayload ann req upd lv A1 B1 B2 A2 B3 B4 A4.
  assert (HPL : createTablePIDList owner [owner; joiner] = [joiner]).
  { unfold createTablePIDList. rewrite filter_cons_False by (intros H; by apply H).
    rewrite filter_cons_True by congruence. reflexivity. }
  assert (HPL' : createTablePIDList joiner [owner; joiner] = [owner]).
  { unfold createTablePIDList. rewrite filter_cons_True by congruence.
    rewrite filter_cons_False by (intros H; by apply H). reflexivity. }
  apply String.eqb_neq in HA, Hid, HAB.
  assert (Hjoin : (slot =? "*")%string || (slot =? joiner)%string = true).
  { destruct Hslot as [-> | ->]; [reflexivity|]. by rewrite String.eqb_refl, orb_true_r. }
  assert (Hgrant : (slot =? joiner)%string || (slot =? "*")%string = true).
  { by rewrite orb_comm. }
  eassert (HA1 : A1 = _).
  { subst A1. unfold run, foldl, exec, createTable, setTimer, announceTable.
    cbn -[createTablePIDList]. normal_form. }
  clearbody A1. subst A1.
  eassert (HB1 : B1 = _).
  { subst B1 ann. unfold delivers, offered_table, created_table.
    unfold run, foldl, exec, handleP2PMessage, captureTable.
    cbn -[createTablePIDList]. rewrite ?HA, ?Hid. cbn -[createTablePIDList]. normal_form. }
  clearbody B1. subst B1.
  eassert (HB2 : B2 = _).
  { subst B2. unfold run, foldl, exec, joinTable, new_Promise, sendJoinTableRequest, setTimer.
    cbn -[createTablePIDList]. rewrite ?HA, ?Hid. cbn -[createTablePIDList].
    rewrite ?Hjoin. cbn -[createTablePIDList]. normal_form. }
  clearbody B2. subst B2.
  eassert (HA2 : A2 = _).
  { subst A2 req. unfold delivers, offered_table, created_table.
    unfold run, foldl, exec, handleP2PMessage.
    cbn -[createTablePIDList]. rewrite ?String.eqb_refl. cbn -[createTablePIDList].
    rewrite ?Hgrant. cbn -[createTablePIDList]. rewrite ?HPL. normal_form. }
  clearbody A2. subst A2.
  eassert (HB3 : B3 = _).
  { subst B3 upd. unfold delivers, seated_table, run, foldl, exec.
    erewrite handleP2PMessage_jointable by reflexivity.
    unfold handle_jointable.
    cbn [find_by_id_name find_accepted default id _joinedTables _joinTableRequests
         set_joinedTables from js_eq_str js_eq ownerPID tableID tableName copyTable].
    rewrite !String.eqb_refl. normal_form. }
  clearbody B3. subst B3.
  eassert (HB4 : B4 = _).
  { subst B4. unfold run, foldl, exec, leaveJoinedTable.
    cbn -[createTablePIDList]. rewrite ?HA, ?Hid. cbn -[createTablePIDList].
    unfold same_table. cbn -[createTablePIDList].
    rewrite ?String.eqb_refl. cbn -[createTablePIDList]. rewrite ?HPL'. normal_form. }
  clearbody B4. subst B4.
  eassert (HA4 : A4 = _).
  { subst A4 lv. unfold delivers, seated_table, run, foldl, exec, handleP2PMessage.
    cbn -[createTablePIDList]. rewrite ?String.eqb_refl. cbn -[createTablePIDList].
    rewrite ?HAB. cbn -[createTablePIDList]. rewrite ?String.eqb_refl.
    cbn -[createTablePIDList]. normal_form. }
  clearbody A4. subst A4.
  subst ann req upd lv. unfold offered_table, seated_table, created_table.
  split; [vm_compute; reflexivity|]. split; [vm_compute; reflexivity|].
  split; [vm_compute; reflexivity|]. split; [vm_compute; reflexivity|].
  unfold delivers, run, foldl, exec, handleP2PMessage, isCPMsgEvent, isCPMessage.
  cbn [data default id]. rewrite Hpayload. reflexivity.
Qed.

Lemma X28_left_seat_is_not_offered_again_witness :
  let req := copyTable (offered_table "A" "tb" "2" "*") (buildCPMessage "jointablerequest") in
  let lv := copyTable (seated_table "A" "B" "tb" "2") (buildCPMessage "leavetable") in
  let A1 := run [Start true; CreateTable (Some "tb") (PlayerList ["*"]) None (Some "2") None true]
              (new_CypherPoker "A") in
  let A4 := run [delivers "B" req; delivers "B" lv] A1 in
  openTables A4 = false /\ run [delivers "C" req] A4 = A4.
Proof.
  pose proof (X28_left_seat_is_not_offered_again "A" "B" "tb" "2" "*" 20000 "C"
                (copyTable (offered_table "A" "tb" "2" "*") (buildCPMessage "jointablerequest")))
    as H.
  destruct H as (_ & _ & _ & Hopen & Hsame);
    [discriminate | discriminate | discriminate | by left | reflexivity |].
  vm_compute in Hopen, Hsame. vm_compute. split; [exact Hopen | exact Hsame].
Defined.

(** ** The timeout handler called as a method *)



